(** * ClaraVerse front end: the Settings view and the widget context menu

    A shallow embedding of [src/components/Settings.tsx] (form state,
    loading on mount, the debounced auto-save effect) and of the
    [WidgetContextMenu] component (conditional action buttons, the
    document-level click listener), with the properties of the
    specification proved over it. *)

From Stdlib Require Import List String Arith ZArith Bool Lia.
Import ListNotations.
Local Open Scope nat_scope.

(** JavaScript truthiness of a string: only the empty string is falsy. *)
Definition truthy (s : string) : bool :=
  match s with
  | EmptyString => false
  | String _ _ => true
  end.

(** [a || b] on strings. *)
Definition js_or (a b : string) : string := if truthy a then a else b.

(* ================================================================== *)
(** * Settings.tsx *)

Module Settings.

(** ** Data model *)

(** Modelled from the spec: the record types [PersonalInfo] and
    [APIConfig] are declared in [../db] and [ThemeMode] in
    [../hooks/useTheme], neither of which is among the sources.  Field
    names, field types and the two value sets follow section 3 of the
    specification and the fields that [Settings.tsx] reads and writes. *)

Inductive ThemeMode := light | dark | system.

Inductive ApiType := ollama | openai.

Definition ApiType_eqb (a b : ApiType) : bool :=
  match a, b with
  | ollama, ollama | openai, openai => true
  | _, _ => false
  end.

Record PersonalInfo := {
  name : string;
  email : string;
  avatar_url : string;
  timezone : string;
  theme_preference : ThemeMode
}.

(** The two n8n fields are optional in the record type; [None] is an
    absent (undefined) property. *)
Record APIConfig := {
  ollama_base_url : string;
  comfyui_base_url : string;
  openai_api_key : string;
  openai_base_url : string;
  n8n_base_url : option string;
  n8n_api_key : option string;
  api_type : ApiType
}.

(** Object spread with one overridden property, [{ ...prev, f: v }]. *)
Definition with_name v (p : PersonalInfo) :=
  {| name := v; email := email p; avatar_url := avatar_url p;
     timezone := timezone p; theme_preference := theme_preference p |}.
Definition with_email v (p : PersonalInfo) :=
  {| name := name p; email := v; avatar_url := avatar_url p;
     timezone := timezone p; theme_preference := theme_preference p |}.
Definition with_avatar_url v (p : PersonalInfo) :=
  {| name := name p; email := email p; avatar_url := v;
     timezone := timezone p; theme_preference := theme_preference p |}.
Definition with_timezone v (p : PersonalInfo) :=
  {| name := name p; email := email p; avatar_url := avatar_url p;
     timezone := v; theme_preference := theme_preference p |}.
Definition with_theme_preference v (p : PersonalInfo) :=
  {| name := name p; email := email p; avatar_url := avatar_url p;
     timezone := timezone p; theme_preference := v |}.

Definition with_ollama_base_url v (c : APIConfig) :=
  {| ollama_base_url := v; comfyui_base_url := comfyui_base_url c;
     openai_api_key := openai_api_key c; openai_base_url := openai_base_url c;
     n8n_base_url := n8n_base_url c; n8n_api_key := n8n_api_key c;
     api_type := api_type c |}.
Definition with_comfyui_base_url v (c : APIConfig) :=
  {| ollama_base_url := ollama_base_url c; comfyui_base_url := v;
     openai_api_key := openai_api_key c; openai_base_url := openai_base_url c;
     n8n_base_url := n8n_base_url c; n8n_api_key := n8n_api_key c;
     api_type := api_type c |}.
Definition with_openai_api_key v (c : APIConfig) :=
  {| ollama_base_url := ollama_base_url c; comfyui_base_url := comfyui_base_url c;
     openai_api_key := v; openai_base_url := openai_base_url c;
     n8n_base_url := n8n_base_url c; n8n_api_key := n8n_api_key c;
     api_type := api_type c |}.
Definition with_openai_base_url v (c : APIConfig) :=
  {| ollama_base_url := ollama_base_url c; comfyui_base_url := comfyui_base_url c;
     openai_api_key := openai_api_key c; openai_base_url := v;
     n8n_base_url := n8n_base_url c; n8n_api_key := n8n_api_key c;
     api_type := api_type c |}.
Definition with_n8n_base_url v (c : APIConfig) :=
  {| ollama_base_url := ollama_base_url c; comfyui_base_url := comfyui_base_url c;
     openai_api_key := openai_api_key c; openai_base_url := openai_base_url c;
     n8n_base_url := Some v; n8n_api_key := n8n_api_key c;
     api_type := api_type c |}.
Definition with_n8n_api_key v (c : APIConfig) :=
  {| ollama_base_url := ollama_base_url c; comfyui_base_url := comfyui_base_url c;
     openai_api_key := openai_api_key c; openai_base_url := openai_base_url c;
     n8n_base_url := n8n_base_url c; n8n_api_key := Some v;
     api_type := api_type c |}.
Definition with_api_type v (c : APIConfig) :=
  {| ollama_base_url := ollama_base_url c; comfyui_base_url := comfyui_base_url c;
     openai_api_key := openai_api_key c; openai_base_url := openai_base_url c;
     n8n_base_url := n8n_base_url c; n8n_api_key := n8n_api_key c;
     api_type := v |}.

Inductive SaveStatus := idle | success | error.

(** ** The host: timers, promise jobs, collaborators *)

(** What a timer runs when it expires.  [SaveTask] is the closure given
    to [setTimeout] by the auto-save effect; it captures [personalInfo]
    and [apiConfig] of the render whose effect created it.
    [ResetStatusTask] is [() => setSaveStatus('idle')]. *)
Inductive task :=
  | SaveTask (snapPersonalInfo : PersonalInfo) (snapApiConfig : APIConfig)
  | ResetStatusTask.

Record timer := {
  handle : nat;
  deadline : nat;
  callback : task
}.

(** A suspended save callback: which [await] it is parked on.  The
    continuation after [await db.updatePersonalInfo(...)] still needs the
    captured [apiConfig]. *)
Inductive continuation :=
  | AwaitUpdatePersonalInfo (snapApiConfig : APIConfig)
  | AwaitUpdateAPIConfig.

(** Calls received by the persistence collaborator [db]. *)
Inductive db_call :=
  | updatePersonalInfo (record : PersonalInfo)
  | updateAPIConfig (record : APIConfig).

Record Host := {
  timers : list timer;          (* pending timers, in creation order *)
  next_handle : nat;            (* handles are positive and never reused *)
  now : nat;                    (* clock, in milliseconds *)
  pending : list continuation;  (* save callbacks parked on a db promise *)
  calls : list db_call;         (* log of writes, oldest first *)
  theme : ThemeMode             (* the theme controller behind [setTheme] *)
}.

(** ** Component state *)

Record Component := {
  personalInfo : PersonalInfo;
  apiConfig : APIConfig;
  isSaving : bool;
  saveStatus : SaveStatus;
  showApiKey : bool;
  saveTimeout : option nat      (* useRef<Timeout | null>(null) *)
}.

Record World := { view : Component; host : Host }.

Definition on_view (f : Component -> Component) (w : World) : World :=
  {| view := f (view w); host := host w |}.
Definition on_host (f : Host -> Host) (w : World) : World :=
  {| view := view w; host := f (host w) |}.

(** State setters. *)
Definition setPersonalInfo (f : PersonalInfo -> PersonalInfo) (c : Component) :=
  {| personalInfo := f (personalInfo c); apiConfig := apiConfig c;
     isSaving := isSaving c; saveStatus := saveStatus c;
     showApiKey := showApiKey c; saveTimeout := saveTimeout c |}.
Definition setApiConfig (f : APIConfig -> APIConfig) (c : Component) :=
  {| personalInfo := personalInfo c; apiConfig := f (apiConfig c);
     isSaving := isSaving c; saveStatus := saveStatus c;
     showApiKey := showApiKey c; saveTimeout := saveTimeout c |}.
Definition setIsSaving (v : bool) (c : Component) :=
  {| personalInfo := personalInfo c; apiConfig := apiConfig c;
     isSaving := v; saveStatus := saveStatus c;
     showApiKey := showApiKey c; saveTimeout := saveTimeout c |}.
Definition setSaveStatus (v : SaveStatus) (c : Component) :=
  {| personalInfo := personalInfo c; apiConfig := apiConfig c;
     isSaving := isSaving c; saveStatus := v;
     showApiKey := showApiKey c; saveTimeout := saveTimeout c |}.
Definition setShowApiKey (v : bool) (c : Component) :=
  {| personalInfo := personalInfo c; apiConfig := apiConfig c;
     isSaving := isSaving c; saveStatus := saveStatus c;
     showApiKey := v; saveTimeout := saveTimeout c |}.
(** Assignment to [saveTimeout.current]. *)
Definition set_saveTimeout (v : option nat) (c : Component) :=
  {| personalInfo := personalInfo c; apiConfig := apiConfig c;
     isSaving := isSaving c; saveStatus := saveStatus c;
     showApiKey := showApiKey c; saveTimeout := v |}.

(** Host primitives. *)
Definition with_timers (ts : list timer) (h : Host) :=
  {| timers := ts; next_handle := next_handle h; now := now h;
     pending := pending h; calls := calls h; theme := theme h |}.
Definition with_now (t : nat) (h : Host) :=
  {| timers := timers h; next_handle := next_handle h; now := t;
     pending := pending h; calls := calls h; theme := theme h |}.
Definition with_pending (p : list continuation) (h : Host) :=
  {| timers := timers h; next_handle := next_handle h; now := now h;
     pending := p; calls := calls h; theme := theme h |}.
Definition db_receive (c : db_call) (h : Host) :=
  {| timers := timers h; next_handle := next_handle h; now := now h;
     pending := pending h; calls := calls h ++ [c]; theme := theme h |}.
Definition setTheme (m : ThemeMode) (h : Host) :=
  {| timers := timers h; next_handle := next_handle h; now := now h;
     pending := pending h; calls := calls h; theme := m |}.

Definition clearTimeout (id : nat) (h : Host) : Host :=
  with_timers (filter (fun t => negb (handle t =? id)) (timers h)) h.

Definition setTimeout (k : task) (delay : nat) (h : Host) : nat * Host :=
  (next_handle h,
   {| timers := timers h ++
                [{| handle := next_handle h; deadline := now h + delay;
                    callback := k |}];
      next_handle := S (next_handle h); now := now h;
      pending := pending h; calls := calls h; theme := theme h |}).

(** ** Loading on mount *)

Definition openai_default_base_url : string := "https://api.openai.com/v1".

(** The body of [loadSettings] after its two awaits, given what
    [db.getPersonalInfo()] and [db.getAPIConfig()] resolved to ([None] is
    an absent record). *)
Definition loadSettings (savedPersonalInfo : option PersonalInfo)
    (savedApiConfig : option APIConfig) (w : World) : World :=
  let w1 :=
    match savedPersonalInfo with
    | Some p =>
        on_host (setTheme (theme_preference p))
          (on_view (setPersonalInfo (fun _ => p)) w)
    | None => w
    end in
  match savedApiConfig with
  | Some c =>
      on_view (setApiConfig (fun _ =>
        with_openai_base_url
          (js_or (openai_base_url c) openai_default_base_url) c)) w1
  | None => w1
  end.

(** ** The auto-save effect *)

Definition debounce_ms : nat := 600.
Definition success_shown_ms : nat := 2000.

(** [if (saveTimeout.current) clearTimeout(saveTimeout.current)]; a
    handle is truthy unless it is [null] or the number 0. *)
Definition clear_saveTimeout (w : World) : World :=
  match saveTimeout (view w) with
  | Some id => if id =? 0 then w else on_host (clearTimeout id) w
  | None => w
  end.

(** The function returned by the effect. *)
Definition auto_save_cleanup (w : World) : World := clear_saveTimeout w.

(** The effect body, run after a render whose [personalInfo] or
    [apiConfig] differs from the previous render's. *)
Definition auto_save_effect (w : World) : World :=
  let w1 := clear_saveTimeout w in
  let w2 := on_view (setIsSaving true) w1 in
  let w3 := on_view (setSaveStatus idle) w2 in
  let '(id, h) :=
    setTimeout (SaveTask (personalInfo (view w)) (apiConfig (view w)))
               debounce_ms (host w3) in
  {| view := set_saveTimeout (Some id) (view w3); host := h |}.

(** A re-render with changed dependencies: cleanup of the previous
    effect, then the effect of the new render. *)
Definition rerender (w : World) : World :=
  auto_save_effect (auto_save_cleanup w).

(** Unmounting runs the cleanup only. *)
Definition unmount (w : World) : World := auto_save_cleanup w.

(** ** The timer callbacks *)

(** Start of the async save callback, up to its first [await]. *)
Definition save_start (p : PersonalInfo) (c : APIConfig) (w : World) : World :=
  on_host (fun h =>
    with_pending (pending h ++ [AwaitUpdatePersonalInfo c])
      (db_receive (updatePersonalInfo p) h)) w.

Definition run_task (k : task) (w : World) : World :=
  match k with
  | SaveTask p c => save_start p c w
  | ResetStatusTask => on_view (setSaveStatus idle) w
  end.

Fixpoint remove_nth {A : Type} (k : nat) (l : list A) : list A :=
  match l, k with
  | [], _ => []
  | _ :: t, 0 => t
  | x :: t, S k' => x :: remove_nth k' t
  end.

(** The [catch] block followed by [finally]. *)
Definition save_failed (w : World) : World :=
  on_view (setIsSaving false) (on_view (setSaveStatus error) w).

(** The rest of the [try] block after both awaits, followed by [finally]. *)
Definition save_succeeded (w : World) : World :=
  let w1 := on_view (setSaveStatus success) w in
  let w2 :=
    on_host (fun h => snd (setTimeout ResetStatusTask success_shown_ms h)) w1 in
  on_view (setIsSaving false) w2.

(** Resumption of a parked save callback when the promise it awaits is
    fulfilled ([true]) or rejected ([false]). *)
Definition resume (k : continuation) (fulfilled : bool) (w : World) : World :=
  match k, fulfilled with
  | AwaitUpdatePersonalInfo c, true =>
      on_host (fun h =>
        with_pending (pending h ++ [AwaitUpdateAPIConfig])
          (db_receive (updateAPIConfig c) h)) w
  | AwaitUpdateAPIConfig, true => save_succeeded w
  | _, false => save_failed w
  end.

Definition settle (k : nat) (fulfilled : bool) (w : World) : World :=
  match nth_error (pending (host w)) k with
  | Some c =>
      resume c fulfilled
        (on_host (fun h => with_pending (remove_nth k (pending h)) h) w)
  | None => w
  end.

(** One millisecond passes; the timers that are due are taken out of the
    table and run in creation order. *)
Definition is_due (t : nat) (x : timer) : bool := deadline x <=? t.

Definition tick (w : World) : World :=
  let t := S (now (host w)) in
  let due := filter (is_due t) (timers (host w)) in
  let rest := filter (fun x => negb (is_due t x)) (timers (host w)) in
  fold_left (fun w' x => run_task (callback x) w') due
    (on_host (fun h => with_timers rest (with_now t h)) w).

(** ** User input *)

Inductive edit :=
  | ChangeName (v : string)
  | ChangeEmail (v : string)
  | ChangeAvatarUrl (v : string)
  | ChangeTimezone (v : string)
  | ChangeTheme (m : ThemeMode)
  | ClickApiType (t : ApiType)
  | ChangeOllamaBaseUrl (v : string)
  | ChangeOpenAIBaseUrl (v : string)
  | ChangeOpenAIApiKey (v : string)
  | ChangeComfyUIBaseUrl (v : string)
  | ChangeN8nBaseUrl (v : string)
  | ChangeN8nApiKey (v : string).

(** The [onChange] / [onClick] handlers of the form. *)
Definition apply_edit (e : edit) (w : World) : World :=
  match e with
  | ChangeName v => on_view (setPersonalInfo (with_name v)) w
  | ChangeEmail v => on_view (setPersonalInfo (with_email v)) w
  | ChangeAvatarUrl v => on_view (setPersonalInfo (with_avatar_url v)) w
  | ChangeTimezone v => on_view (setPersonalInfo (with_timezone v)) w
  | ChangeTheme m =>
      on_host (setTheme m)
        (on_view (setPersonalInfo (with_theme_preference m)) w)
  | ClickApiType t => on_view (setApiConfig (with_api_type t)) w
  | ChangeOllamaBaseUrl v => on_view (setApiConfig (with_ollama_base_url v)) w
  | ChangeOpenAIBaseUrl v => on_view (setApiConfig (with_openai_base_url v)) w
  | ChangeOpenAIApiKey v => on_view (setApiConfig (with_openai_api_key v)) w
  | ChangeComfyUIBaseUrl v => on_view (setApiConfig (with_comfyui_base_url v)) w
  | ChangeN8nBaseUrl v => on_view (setApiConfig (with_n8n_base_url v)) w
  | ChangeN8nApiKey v => on_view (setApiConfig (with_n8n_api_key v)) w
  end.

(** ** The event loop *)

Inductive event :=
  | Edit (e : edit)
  | ToggleShowApiKey
  | Loaded (savedPersonalInfo : option PersonalInfo)
           (savedApiConfig : option APIConfig)
  | Tick
  | Settle (k : nat) (fulfilled : bool).

(** Every handler of [apply_edit] installs a fresh object, so the render
    that follows always re-runs the auto-save effect.  [loadSettings]
    calls a setter only for a record that is present; its setter calls are
    followed by one render (running the effect once per setter instead
    would leave the same timers, with later handles). *)
Definition step (w : World) (ev : event) : World :=
  match ev with
  | Edit e => rerender (apply_edit e w)
  | ToggleShowApiKey =>
      on_view (setShowApiKey (negb (showApiKey (view w)))) w
  | Loaded sp sc =>
      match sp, sc with
      | None, None => w
      | _, _ => rerender (loadSettings sp sc w)
      end
  | Tick => tick w
  | Settle k ok => settle k ok w
  end.

Definition run (w : World) (evs : list event) : World := fold_left step evs w.

(** ** Conditional rendering of the API section *)

Inductive input_group := OllamaGroup | OpenAIGroup.

Inductive control :=
  | NameInput | EmailInput | AvatarUrlInput
  | OllamaButton | OpenAIButton
  | OllamaBaseUrlInput
  | OpenAIBaseUrlInput | OpenAIApiKeyInput
  | ComfyUIBaseUrlInput
  | N8nBaseUrlInput | N8nApiKeyInput | ShowApiKeyButton
  | ThemeSelect | TimezoneSelect.

Definition group_inputs (g : input_group) : list control :=
  match g with
  | OllamaGroup => [OllamaBaseUrlInput]
  | OpenAIGroup => [OpenAIBaseUrlInput; OpenAIApiKeyInput]
  end.

(** [{cond && (<div>...</div>)}]. *)
Definition when {A : Type} (cond : bool) (x : A) : list A :=
  if cond then [x] else [].

Definition api_type_groups (c : APIConfig) : list input_group :=
  when (ApiType_eqb (api_type c) ollama) OllamaGroup ++
  when (ApiType_eqb (api_type c) openai) OpenAIGroup.

Definition render_settings (v : Component) : list control :=
  [NameInput; EmailInput; AvatarUrlInput; OllamaButton; OpenAIButton] ++
  flat_map group_inputs (api_type_groups (apiConfig v)) ++
  [ComfyUIBaseUrlInput; N8nBaseUrlInput; N8nApiKeyInput; ShowApiKeyButton;
   ThemeSelect; TimezoneSelect].

(** ** Predicates used by the specification *)

Definition is_save (x : timer) : bool :=
  match callback x with
  | SaveTask _ _ => true
  | ResetStatusTask => false
  end.

(** The debounced saves that are waiting for their timer. *)
Definition save_timers (w : World) : list timer :=
  filter is_save (timers (host w)).

(** Bookkeeping of handles: they are positive, unique and below
    [next_handle]; the ref holds such a handle or [null]; every waiting
    save timer is the one the ref points to. *)
Record timer_inv (w : World) : Prop := {
  inv_next : 0 < next_handle (host w);
  inv_fresh : Forall (fun x => 0 < handle x < next_handle (host w))
                (timers (host w));
  inv_nodup : NoDup (map handle (timers (host w)));
  inv_ref : forall id, saveTimeout (view w) = Some id ->
              0 < id < next_handle (host w);
  inv_owned : Forall (fun x => saveTimeout (view w) = Some (handle x))
                (save_timers w)
}.

(** Every waiting save timer carries the current records and expires
    within the debounce delay. *)
Definition snapshot_inv (w : World) : Prop :=
  Forall (fun x =>
            callback x = SaveTask (personalInfo (view w)) (apiConfig (view w)) /\
            now (host w) < deadline x <= now (host w) + debounce_ms)
    (save_timers w).

(** Events after which [personalInfo] or [apiConfig] is a new object:
    any edit, and a load that found a stored record. *)
Definition changes_records (ev : event) : bool :=
  match ev with
  | Edit _ => true
  | Loaded None None => false
  | Loaded _ _ => true
  | _ => false
  end.

Definition is_tick (ev : event) : bool :=
  match ev with Tick => true | _ => false end.

(** Milliseconds that pass during a trace. *)
Definition ticks (evs : list event) : nat := List.length (filter is_tick evs).

(** [quiet since evs]: throughout [evs], which starts [since] ms after the
    latest change of the records, fewer than [debounce_ms] ms ever pass
    without a further change. *)
Fixpoint quiet (since : nat) (evs : list event) : bool :=
  match evs with
  | [] => true
  | ev :: rest =>
      if changes_records ev then quiet 0 rest
      else if is_tick ev then (S since <? debounce_ms) && quiet (S since) rest
      else quiet since rest
  end.

(** A write that belongs to a save which had already made its first write
    when the pending list was [p]. *)
Definition continues (p : list continuation) (c : db_call) : Prop :=
  exists ac, c = updateAPIConfig ac /\ In (AwaitUpdatePersonalInfo ac) p.

(** What [loadSettings] installs, record by record. *)
Definition loaded_personalInfo (sp : option PersonalInfo) (old : PersonalInfo) :=
  match sp with Some p => p | None => old end.

Definition loaded_apiConfig (sc : option APIConfig) (old : APIConfig) :=
  match sc with
  | Some c =>
      with_openai_base_url (js_or (openai_base_url c) openai_default_base_url) c
  | None => old
  end.

(** Events that are either a click on one of the two API-type buttons or
    no input to the form at all. *)
Definition toggle_or_passive (ev : event) : bool :=
  match ev with
  | Edit (ClickApiType _) | Tick | Settle _ _ | ToggleShowApiKey => true
  | _ => false
  end.

Definition unchanging (ev : event) : bool := negb (changes_records ev).

Definition armed_timer (w : World) : timer :=
  {| handle := next_handle (host w);
     deadline := now (host w) + debounce_ms;
     callback := SaveTask (personalInfo (view w)) (apiConfig (view w)) |}.

Definition started_calls (due : list timer) : list db_call :=
  flat_map (fun x => match callback x with
                     | SaveTask p _ => [updatePersonalInfo p]
                     | ResetStatusTask => []
                     end) due.

Definition parked (due : list timer) : list continuation :=
  flat_map (fun x => match callback x with
                     | SaveTask _ c => [AwaitUpdatePersonalInfo c]
                     | ResetStatusTask => []
                     end) due.

(** The state [since] ms after the latest change, relative to the calls
    [c0] and parked callbacks [p0] at the start of the burst. *)
Record in_burst (c0 : list db_call) (p0 : list continuation)
    (since : nat) (w : World) : Prop := {
  burst_timer_inv : timer_inv w;
  burst_since : since < debounce_ms;
  burst_deadline : Forall (fun x => deadline x + since = now (host w) + debounce_ms)
                     (save_timers w);
  burst_calls : exists l, calls (host w) = c0 ++ l /\ Forall (continues p0) l;
  burst_pending : forall ac, In (AwaitUpdatePersonalInfo ac) (pending (host w)) ->
                             In (AwaitUpdatePersonalInfo ac) p0
}.

Section WithRuntime.

(** [Intl.DateTimeFormat().resolvedOptions().timeZone] of the runtime. *)
Variable runtime_timeZone : string.

(** The mode the theme controller is in when the view is mounted. *)
Variable initial_theme : ThemeMode.

(** ** Initial state (the two [useState] initialisers) *)

Definition default_personalInfo : PersonalInfo :=
  {| name := EmptyString; email := EmptyString; avatar_url := EmptyString;
     timezone := runtime_timeZone; theme_preference := system |}.

Definition default_apiConfig : APIConfig :=
  {| ollama_base_url := EmptyString; comfyui_base_url := EmptyString;
     openai_api_key := EmptyString; openai_base_url := EmptyString;
     n8n_base_url := None; n8n_api_key := None;
     api_type := ollama |}.

Definition initial_component : Component :=
  {| personalInfo := default_personalInfo; apiConfig := default_apiConfig;
     isSaving := false; saveStatus := idle; showApiKey := false;
     saveTimeout := None |}.

Definition initial_host : Host :=
  {| timers := []; next_handle := 1; now := 0; pending := []; calls := [];
     theme := initial_theme |}.

(** First render followed by the first run of the auto-save effect.  The
    effect that starts [loadSettings] only issues the two reads; their
    answer arrives later as a [Loaded] event. *)
Definition mount : World :=
  auto_save_effect {| view := initial_component; host := initial_host |}.

End WithRuntime.

(** ** Sample inputs *)

(** A stored record whose OpenAI base URL is blank. *)
Definition blank_url_config : APIConfig :=
  {| ollama_base_url := "http://localhost:11434";
     comfyui_base_url := EmptyString;
     openai_api_key := EmptyString;
     openai_base_url := EmptyString;
     n8n_base_url := None; n8n_api_key := None;
     api_type := ollama |}.

(** A concrete run: a stored configuration is loaded, then the type is
    switched to "openai" and back, with half a second in between. *)
Definition sample_config : APIConfig :=
  {| ollama_base_url := "http://localhost:11434";
     comfyui_base_url := "http://localhost:8188";
     openai_api_key := "sk-test";
     openai_base_url := "https://example.org/v1";
     n8n_base_url := Some "http://localhost:5678"%string;
     n8n_api_key := None;
     api_type := ollama |}.

Definition sample_loaded : World :=
  run (mount "UTC" system) [Loaded None (Some sample_config)].

Definition sample_toggles : list event :=
  Edit (ClickApiType openai) :: repeat Tick 500 ++ [Edit (ClickApiType ollama)].

(** The spec's example: the name is typed right after mount and the
    e-mail address 300 ms later; then nothing happens for 599 ms. *)
Definition ada_history : list event :=
  Edit (ChangeName "Ada") :: repeat Tick 300.

Definition ada_wait : list event := repeat Tick 599.

(** Two edits 100 ms apart, made while the save of the defaults (started
    600 ms after mount) is waiting for its first write; that write is
    fulfilled between the two edits. *)
Definition defaults_save_in_flight : list event := repeat Tick 600.

Definition first_quick_edit : list event :=
  Edit (ChangeName "A") :: repeat Tick 100.

Definition between_quick_edits : list event :=
  repeat Tick 100 ++ [Settle 0 true].

(** A save is in flight when the view is left: an edit, 600 ms. *)
Definition edit_then_save_starts : list event :=
  Edit (ChangeName "A") :: repeat Tick 600.

(** A save whose first write is rejected, 600 ms after mount. *)
Definition first_save_due : World :=
  run (mount "UTC" system) (repeat Tick 600).

(** The save of the defaults starts 600 ms after mount; then a stored
    configuration arrives and its save starts 600 ms later, while the
    first is still waiting for its write. *)
Definition two_saves_in_flight : list event :=
  repeat Tick 600 ++ [Loaded None (Some sample_config)] ++ repeat Tick 600.

(** The first save after mount, with its first write fulfilled. *)
Definition first_save_history : list event :=
  repeat Tick 600 ++ [Settle 0 true].

(** ** Time-zone options *)

(** What the runtime offers for [Intl.supportedValuesOf]: no such
    function, a call that throws, or a call that returns a list. *)
Inductive supportedValuesOf :=
  | NotAFunction
  | Throws
  | Returns (zones : list string).

Definition fallback_timezoneOptions : list string :=
  ["UTC"; "America/New_York"; "Europe/London"; "Asia/Tokyo"; "Asia/Kolkata";
   "Europe/Paris"; "Europe/Berlin"; "America/Los_Angeles";
   "Australia/Sydney"]%string.

(** The [try] / [catch] block followed by the [if (!timezoneOptions.length)]. *)
Definition timezoneOptions (intl : supportedValuesOf) : list string :=
  let queried :=
    match intl with
    | Returns zones => zones
    | NotAFunction => []
    | Throws => []
    end in
  if List.length queried =? 0 then fallback_timezoneOptions else queried.

(** [<option key={tz} value={tz}>{tz}</option>] for each entry: key,
    value and text. *)
Definition timezone_option_elements (intl : supportedValuesOf)
  : list (string * string * string) :=
  map (fun tz => (tz, tz, tz)) (timezoneOptions intl).

(** ** What the controls display *)

Definition ThemeMode_value (m : ThemeMode) : string :=
  match m with
  | light => "light"
  | dark => "dark"
  | system => "system"
  end.

(** [value || ''] for an optional string property. *)
Definition or_empty (o : option string) : string :=
  match o with
  | Some s => js_or s EmptyString
  | None => EmptyString
  end.

(** The [value] attribute of each input and select; buttons have none. *)
Definition control_value (c : control) (v : Component) : option string :=
  match c with
  | NameInput => Some (name (personalInfo v))
  | EmailInput => Some (email (personalInfo v))
  | AvatarUrlInput => Some (avatar_url (personalInfo v))
  | OllamaBaseUrlInput => Some (ollama_base_url (apiConfig v))
  | OpenAIBaseUrlInput => Some (openai_base_url (apiConfig v))
  | OpenAIApiKeyInput => Some (openai_api_key (apiConfig v))
  | ComfyUIBaseUrlInput => Some (comfyui_base_url (apiConfig v))
  | N8nBaseUrlInput => Some (or_empty (n8n_base_url (apiConfig v)))
  | N8nApiKeyInput => Some (or_empty (n8n_api_key (apiConfig v)))
  | ThemeSelect => Some (ThemeMode_value (theme_preference (personalInfo v)))
  | TimezoneSelect => Some (timezone (personalInfo v))
  | OllamaButton | OpenAIButton | ShowApiKeyButton => None
  end.

(** The control whose [onChange] an edit comes from, and the value the
    event carries ([e.target.value]); the two API-type buttons carry no
    value. *)
Definition edit_target (e : edit) : option (control * string) :=
  match e with
  | ChangeName v => Some (NameInput, v)
  | ChangeEmail v => Some (EmailInput, v)
  | ChangeAvatarUrl v => Some (AvatarUrlInput, v)
  | ChangeTimezone v => Some (TimezoneSelect, v)
  | ChangeTheme m => Some (ThemeSelect, ThemeMode_value m)
  | ClickApiType _ => None
  | ChangeOllamaBaseUrl v => Some (OllamaBaseUrlInput, v)
  | ChangeOpenAIBaseUrl v => Some (OpenAIBaseUrlInput, v)
  | ChangeOpenAIApiKey v => Some (OpenAIApiKeyInput, v)
  | ChangeComfyUIBaseUrl v => Some (ComfyUIBaseUrlInput, v)
  | ChangeN8nBaseUrl v => Some (N8nBaseUrlInput, v)
  | ChangeN8nApiKey v => Some (N8nApiKeyInput, v)
  end.

Definition control_eqb (a b : control) : bool :=
  match a, b with
  | NameInput, NameInput | EmailInput, EmailInput
  | AvatarUrlInput, AvatarUrlInput | OllamaButton, OllamaButton
  | OpenAIButton, OpenAIButton | OllamaBaseUrlInput, OllamaBaseUrlInput
  | OpenAIBaseUrlInput, OpenAIBaseUrlInput
  | OpenAIApiKeyInput, OpenAIApiKeyInput
  | ComfyUIBaseUrlInput, ComfyUIBaseUrlInput
  | N8nBaseUrlInput, N8nBaseUrlInput | N8nApiKeyInput, N8nApiKeyInput
  | ShowApiKeyButton, ShowApiKeyButton | ThemeSelect, ThemeSelect
  | TimezoneSelect, TimezoneSelect => true
  | _, _ => false
  end.


(** ** The save badge *)

Definition badge_colour (v : Component) : string :=
  if isSaving v then "bg-gray-400"
  else match saveStatus v with
       | success => "bg-green-500"
       | error => "bg-red-500"
       | idle => "bg-sakura-500"
       end.

Definition badge_label (v : Component) : string :=
  if isSaving v then "Saving..."
  else match saveStatus v with
       | success => "Saved!"
       | error => "Error!"
       | idle => "Auto Save"
       end.

(** ** Further predicates on traces and states *)

Definition is_settle (ev : event) : bool :=
  match ev with Settle _ _ => true | _ => false end.

(** What can still happen once the view is gone: time passes, and the
    promises that save callbacks wait for are settled. *)
Definition after_unmount (ev : event) : bool := is_tick ev || is_settle ev.

(** Events that call [setTheme]. *)
Definition syncs_theme (ev : event) : bool :=
  match ev with
  | Edit (ChangeTheme _) => true
  | Loaded (Some _) _ => true
  | _ => false
  end.

Definition is_reset (x : timer) : bool := negb (is_save x).

(** A timer the ref points to is a save timer. *)
Definition ref_is_save (w : World) : Prop :=
  Forall (fun x => saveTimeout (view w) = Some (handle x) -> is_save x = true)
    (timers (host w)).

(** Some status-reset timer with deadline [d] is in the table. *)
Definition reset_waiting (d : nat) (w : World) : Prop :=
  exists x, In x (timers (host w)) /\ is_reset x = true /\ deadline x = d.

End Settings.

(* ================================================================== *)
(** * WidgetContextMenu *)

Module WidgetContextMenu.

(** ** The DOM as the click listener sees it *)

#[warnings="-register-all"] Inductive dom :=
  | DElement (tag : string) (classList : list string) (children : list dom)
  | DText (data : string).

Definition dom_children (d : dom) : list dom :=
  match d with
  | DElement _ _ ch => ch
  | DText _ => []
  end.

(** The node reached from [d] by taking the [i]-th child for each [i] of
    the path. *)
Fixpoint node_at (d : dom) (path : list nat) : option dom :=
  match path with
  | [] => Some d
  | i :: rest =>
      match nth_error (dom_children d) i with
      | Some c => node_at c rest
      | None => None
      end
  end.

(** The nodes met on the way, root first, the node itself last. *)
Fixpoint lineage (d : dom) (path : list nat) : option (list dom) :=
  match path with
  | [] => Some [d]
  | i :: rest =>
      match nth_error (dom_children d) i with
      | Some c => option_map (cons d) (lineage c rest)
      | None => None
      end
  end.

(** The node at [path] followed by its ancestors, nearest first. *)
Definition inclusive_ancestors (d : dom) (path : list nat) : option (list dom) :=
  option_map (@rev dom) (lineage d path).

Definition matches_class (c : string) (d : dom) : bool :=
  match d with
  | DElement _ cl _ => existsb (String.eqb c) cl
  | DText _ => false
  end.

(** [target.closest('.c')], given the target's inclusive ancestors. *)
Definition closest (c : string) (chain : list dom) : option dom :=
  find (matches_class c) chain.

(** [strip_prefix p l] is [Some r] when [l = p ++ r]. *)
Fixpoint strip_prefix (p l : list nat) : option (list nat) :=
  match p, l with
  | [], _ => Some l
  | a :: p', b :: l' => if a =? b then strip_prefix p' l' else None
  | _ :: _, [] => None
  end.

(** ** Props, handlers and the element tree *)

(** The calls the component makes to the functions it was given. *)
Inductive invocation :=
  | Called_onClose
  | Called_onAddWidget
  | Called_onRemoveWidget
  | Called_onRearrangeWidgets.

Inductive action := AddWidget | RearrangeWidgets | RemoveWidget.

Definition label_of (a : action) : string :=
  match a with
  | AddWidget => "Add Widget"
  | RearrangeWidgets => "Rearrange Widgets"
  | RemoveWidget => "Remove Widget"
  end.

Definition invocation_of (a : action) : invocation :=
  match a with
  | AddWidget => Called_onAddWidget
  | RearrangeWidgets => Called_onRearrangeWidgets
  | RemoveWidget => Called_onRemoveWidget
  end.

Section WithWorld.

(** Whatever the caller's callbacks act on. *)
Variable W : Type.

Record ContextMenuProps := {
  x : Z;
  y : Z;
  onClose : W -> W;
  onAddWidget : option (W -> W);
  onRemoveWidget : option (W -> W);
  onRearrangeWidgets : option (W -> W);
  showRemove : option bool
}.

(** The state of one click being dispatched. *)
Record Dispatch := {
  world : W;
  invoked : list invocation;      (* oldest first *)
  propagationStopped : bool
}.

Definition handler := Dispatch -> Dispatch.

Definition stopPropagation (d : Dispatch) : Dispatch :=
  {| world := world d; invoked := invoked d; propagationStopped := true |}.

Definition invoke (i : invocation) (f : W -> W) (d : Dispatch) : Dispatch :=
  {| world := f (world d); invoked := invoked d ++ [i];
     propagationStopped := propagationStopped d |}.

#[warnings="-register-all"] Inductive vnode :=
  | VElement (tag : string) (className : list string) (style : option (Z * Z))
             (onClick : option handler) (children : list vnode)
  | VText (text : string).

Definition vnode_children (v : vnode) : list vnode :=
  match v with
  | VElement _ _ _ _ ch => ch
  | VText _ => []
  end.

Definition vnode_onClick (v : vnode) : option handler :=
  match v with
  | VElement _ _ _ h _ => h
  | VText _ => None
  end.

(** The DOM that React builds for an element tree. *)
Fixpoint to_dom (v : vnode) : dom :=
  match v with
  | VElement t cl _ _ ch => DElement t cl (map to_dom ch)
  | VText s => DText s
  end.

(** The elements on the way from [v] down along [path], nearest to the
    target first; the walk stops where the path leaves the tree. *)
Fixpoint vnode_ancestors (v : vnode) (path : list nat) (up : list vnode)
  : list vnode :=
  match path with
  | [] => v :: up
  | i :: rest =>
      match nth_error (vnode_children v) i with
      | Some c => vnode_ancestors c rest (v :: up)
      | None => v :: up
      end
  end.

(** ** The component *)

Definition menu_className : list string :=
  ["context-menu"; "fixed"; "bg-white"; "dark:bg-gray-800"; "rounded-lg";
   "shadow-lg"; "border"; "border-gray-200"; "dark:border-gray-700"; "py-1";
   "z-50"]%string.

Definition item_className (colour : list string) : list string :=
  ["w-full"; "px-4"; "py-2"; "text-left"; "text-sm"]%string ++ colour ++
  ["hover:bg-gray-100"; "dark:hover:bg-gray-700"; "flex"; "items-center";
   "gap-2"]%string.

Definition neutral : list string := ["text-gray-700"; "dark:text-gray-300"]%string.
Definition danger : list string := ["text-red-600"; "dark:text-red-400"]%string.

(** [(e) => { e.stopPropagation(); callback(); onClose(); }]. *)
Definition action_onClick (p : ContextMenuProps) (i : invocation) (f : W -> W)
  : handler :=
  fun d => invoke Called_onClose (onClose p) (invoke i f (stopPropagation d)).

Definition icon (name : string) : vnode :=
  VElement name ["w-4"; "h-4"]%string None None [].

Definition menu_button (colour : list string) (h : handler)
    (icon_name label : string) : vnode :=
  VElement "button" (item_className colour) None (Some h)
    [icon icon_name; VText label].

(** [showRemove = false] in the parameter list: the default applies when
    the prop is left out. *)
Definition showRemove_or_default (p : ContextMenuProps) : bool :=
  match showRemove p with
  | Some b => b
  | None => false
  end.

Definition render (p : ContextMenuProps) : vnode :=
  VElement "div" menu_className (Some (x p, y p)) None
    (match onAddWidget p with
     | Some f =>
         [menu_button neutral (action_onClick p Called_onAddWidget f)
            "Plus" (label_of AddWidget)]
     | None => []
     end ++
     match onRearrangeWidgets p with
     | Some f =>
         [menu_button neutral (action_onClick p Called_onRearrangeWidgets f)
            "Move" (label_of RearrangeWidgets)]
     | None => []
     end ++
     match showRemove_or_default p, onRemoveWidget p with
     | true, Some f =>
         [menu_button danger (action_onClick p Called_onRemoveWidget f)
            "Trash2" (label_of RemoveWidget)]
     | _, _ => []
     end).

(** The listener put on [document] by the effect. *)
Definition handleClickOutside (p : ContextMenuProps) (chain : list dom)
    (d : Dispatch) : Dispatch :=
  match closest "context-menu" chain with
  | Some _ => d
  | None => invoke Called_onClose (onClose p) d
  end.

(** ** Dispatch of a click *)

(** React's bubbling through the element tree, target first. *)
Fixpoint bubble (chain : list vnode) (d : Dispatch) : Dispatch :=
  match chain with
  | [] => d
  | v :: up =>
      let d' := match vnode_onClick v with
                | Some h => h d
                | None => d
                end in
      if propagationStopped d' then d' else bubble up d'
  end.

(** A click on the element at [target] of a page in which the menu is
    mounted at [menu_at].  Elements of the page outside the menu have no
    click handlers of their own here.  The React handlers run first; the
    listener on [document] runs afterwards unless the native event was
    stopped on its way up.  [stops_native] tells whether
    [stopPropagation] on React's event does that (it does when React
    listens on its root container, not when it listens on [document]
    itself).  The result is [None] when [target] is not an element of
    the page. *)
Definition click (stops_native : bool) (p : ContextMenuProps) (page : dom)
    (menu_at target : list nat) (w : W) : option Dispatch :=
  match inclusive_ancestors page target with
  | Some (DElement t cl ch :: up) =>
      let chain := DElement t cl ch :: up in
      let d0 := {| world := w; invoked := []; propagationStopped := false |} in
      let d1 := match strip_prefix menu_at target with
                | Some rel => bubble (vnode_ancestors (render p) rel []) d0
                | None => d0
                end in
      Some (if stops_native && propagationStopped d1 then d1
            else handleClickOutside p chain d1)
  | _ => None
  end.

(** ** Finding a control in the rendered menu *)

Definition has_label (label : string) (v : vnode) : bool :=
  existsb (fun c => match c with
                    | VText s => String.eqb s label
                    | VElement _ _ _ _ _ => false
                    end) (vnode_children v).

Fixpoint index_of (f : vnode -> bool) (l : list vnode) : option nat :=
  match l with
  | [] => None
  | v :: rest => if f v then Some 0 else option_map S (index_of f rest)
  end.

(** Position of the button for [a] among the menu's children, if it is
    rendered. *)
Definition control_index (a : action) (p : ContextMenuProps) : option nat :=
  index_of (has_label (label_of a)) (vnode_children (render p)).

Definition callback_of (a : action) (p : ContextMenuProps) : option (W -> W) :=
  match a with
  | AddWidget => onAddWidget p
  | RearrangeWidgets => onRearrangeWidgets p
  | RemoveWidget => onRemoveWidget p
  end.

Definition is_some {A : Type} (o : option A) : bool :=
  match o with Some _ => true | None => false end.

End WithWorld.

Arguments x {W}.
Arguments y {W}.
Arguments onClose {W}.
Arguments onAddWidget {W}.
Arguments onRemoveWidget {W}.
Arguments onRearrangeWidgets {W}.
Arguments showRemove {W}.
Arguments world {W}.
Arguments invoked {W}.
Arguments propagationStopped {W}.
Arguments render {W}.
Arguments click {W}.
Arguments to_dom {W}.
Arguments control_index {W}.
Arguments callback_of {W}.
Arguments handleClickOutside {W}.
Arguments showRemove_or_default {W}.
Arguments bubble {W}.
Arguments vnode_ancestors {W}.
Arguments vnode_children {W}.
Arguments vnode_onClick {W}.
Arguments invoke {W}.
Arguments stopPropagation {W}.
Arguments action_onClick {W}.

(** ** A sample page *)

(** A page with a second element of class "context-menu" next to the
    mounted menu; the callbacks count how often they are called. *)
Definition counting_props : ContextMenuProps (nat * nat) :=
  {| x := 10%Z; y := 20%Z;
     onClose := fun c => (fst c, S (snd c));
     onAddWidget := Some (fun c => (S (fst c), snd c));
     onRemoveWidget := None;
     onRearrangeWidgets := None;
     showRemove := None |}.

Definition two_menus_page : dom :=
  DElement "body" []
    [DElement "div" ["context-menu"%string] [DElement "span" [] [DText "other"]];
     to_dom (render counting_props);
     DElement "main" [] [DElement "p" [] [DText "dashboard"]]].

(** ** The listener's life cycle *)

Section Lifecycle.

Variable W : Type.

(** A [handleClickOutside] on [document].  Each run of the effect makes a
    new function, so a registration is identified by a counter; the
    function closes over the props of the render it was made in. *)
Record listener := {
  listener_id : nat;
  listener_props : ContextMenuProps W
}.

Record Document := {
  listeners : list listener;     (* in registration order *)
  next_listener : nat
}.

Definition addEventListener (p : ContextMenuProps W) (d : Document)
  : nat * Document :=
  (next_listener d,
   {| listeners := listeners d ++
                   [{| listener_id := next_listener d; listener_props := p |}];
      next_listener := S (next_listener d) |}).

Definition removeEventListener (id : nat) (d : Document) : Document :=
  {| listeners := filter (fun l => negb (listener_id l =? id)) (listeners d);
     next_listener := next_listener d |}.

(** A mounted menu: the props of its last render, the listener its last
    effect run registered, and the document. *)
Record Mounted := {
  current : ContextMenuProps W;
  registered : nat;
  document : Document
}.

(** First render: the effect runs. *)
Definition mount_menu (p : ContextMenuProps W) (d : Document) : Mounted :=
  let '(id, d') := addEventListener p d in
  {| current := p; registered := id; document := d' |}.

(** A re-render by the parent.  [new_onClose] is [None] when the parent
    passes the very function it passed before, so that the dependency
    list [[onClose]] is unchanged and the effect is left alone; otherwise
    the old effect is cleaned up and the effect runs again. *)
Inductive rerender_event :=
  | Rerender (px py : Z) (new_onClose : option (W -> W))
             (add remove rearrange : option (W -> W)) (show : option bool).

Definition update (m : Mounted) (ev : rerender_event) : Mounted :=
  match ev with
  | Rerender px py new_onClose add remove rearrange show =>
      let p' :=
        {| x := px; y := py;
           onClose := match new_onClose with
                      | Some f => f
                      | None => onClose (current m)
                      end;
           onAddWidget := add; onRemoveWidget := remove;
           onRearrangeWidgets := rearrange; showRemove := show |} in
      match new_onClose with
      | None =>
          {| current := p'; registered := registered m;
             document := document m |}
      | Some _ =>
          let d1 := removeEventListener (registered m) (document m) in
          let '(id, d2) := addEventListener p' d1 in
          {| current := p'; registered := id; document := d2 |}
      end
  end.

(** Unmounting runs the cleanup. *)
Definition unmount_menu (m : Mounted) : Document :=
  removeEventListener (registered m) (document m).

(** A click that reaches [document]: every registered listener runs, in
    registration order. *)
Definition document_click (chain : list dom) (d : Document)
    (s : Dispatch W) : Dispatch W :=
  fold_left (fun s' l => handleClickOutside (listener_props l) chain s')
    (listeners d) s.

(** ** The labels of the rendered buttons *)

Definition vnode_texts (v : vnode W) : list string :=
  flat_map (fun c => match c with
                     | VText _ s => [s]
                     | VElement _ _ _ _ _ _ => []
                     end) (vnode_children v).

Definition menu_labels (p : ContextMenuProps W) : list string :=
  flat_map vnode_texts (vnode_children (render p)).

End Lifecycle.

Arguments listener_id {W}.
Arguments listener_props {W}.
Arguments listeners {W}.
Arguments next_listener {W}.
Arguments current {W}.
Arguments registered {W}.
Arguments document {W}.
Arguments mount_menu {W}.
Arguments update {W}.
Arguments unmount_menu {W}.
Arguments document_click {W}.
Arguments menu_labels {W}.
Arguments addEventListener {W}.
Arguments removeEventListener {W}.

(** A parent that re-renders the sample menu twice, the second time with
    a new close callback. *)
Definition sample_rerenders : list (rerender_event (nat * nat)) :=
  [Rerender (nat * nat) 30%Z 40%Z None None None None None;
   Rerender (nat * nat) 30%Z 40%Z (Some (fun c => (fst c, 10 + snd c)))
     None None None None].

End WidgetContextMenu.

(* ================================================================== *)
(** * Properties of the Settings view *)

Module SettingsSpec.
Import Settings.

(** ** Frame lemmas: which events touch the two records *)

Lemma fold_run_task_view :
  forall (due : list timer) (w : World),
    personalInfo (view (fold_left (fun w' x => run_task (callback x) w') due w))
      = personalInfo (view w) /\
    apiConfig (view (fold_left (fun w' x => run_task (callback x) w') due w))
      = apiConfig (view w) /\
    saveTimeout (view (fold_left (fun w' x => run_task (callback x) w') due w))
      = saveTimeout (view w).
Proof.
  induction due as [|x due IH]; intros w; simpl; [auto|].
  destruct (IH (run_task (callback x) w)) as (H1 & H2 & H3).
  rewrite H1, H2, H3. destruct (callback x); simpl; auto.
Qed.

Lemma tick_records :
  forall w, personalInfo (view (tick w)) = personalInfo (view w) /\
            apiConfig (view (tick w)) = apiConfig (view w) /\
            saveTimeout (view (tick w)) = saveTimeout (view w).
Proof.
  intros w. unfold tick.
  match goal with |- context [fold_left ?f ?d ?a] =>
    destruct (fold_run_task_view d a) as (H1 & H2 & H3) end.
  rewrite H1, H2, H3. simpl. auto.
Qed.

Lemma resume_records :
  forall k ok w, personalInfo (view (resume k ok w)) = personalInfo (view w) /\
                 apiConfig (view (resume k ok w)) = apiConfig (view w) /\
                 saveTimeout (view (resume k ok w)) = saveTimeout (view w).
Proof. intros [c|] [|] w; simpl; auto. Qed.

Lemma settle_records :
  forall k ok w, personalInfo (view (settle k ok w)) = personalInfo (view w) /\
                 apiConfig (view (settle k ok w)) = apiConfig (view w) /\
                 saveTimeout (view (settle k ok w)) = saveTimeout (view w).
Proof.
  intros k ok w. unfold settle.
  destruct (nth_error (pending (host w)) k) as [c|]; [|auto].
  match goal with |- context [resume c ok ?a] =>
    destruct (resume_records c ok a) as (H1 & H2 & H3) end.
  rewrite H1, H2, H3. simpl. auto.
Qed.

Lemma clear_saveTimeout_view :
  forall w, view (clear_saveTimeout w) = view w.
Proof.
  intros w. unfold clear_saveTimeout.
  destruct (saveTimeout (view w)) as [id|]; [|reflexivity].
  destruct (id =? 0); reflexivity.
Qed.

Lemma rerender_records :
  forall w, personalInfo (view (rerender w)) = personalInfo (view w) /\
            apiConfig (view (rerender w)) = apiConfig (view w).
Proof.
  intros w. unfold rerender, auto_save_cleanup, auto_save_effect. simpl.
  rewrite !clear_saveTimeout_view. auto.
Qed.

Lemma ticks_records :
  forall n w, personalInfo (view (run w (repeat Tick n))) = personalInfo (view w) /\
              apiConfig (view (run w (repeat Tick n))) = apiConfig (view w).
Proof.
  induction n as [|n IH]; intros w; simpl; [auto|].
  destruct (IH (tick w)) as (H1 & H2). rewrite H1, H2.
  destruct (tick_records w) as (H3 & H4 & _). auto.
Qed.

Lemma run_app : forall evs1 evs2 w, run w (evs1 ++ evs2) = run (run w evs1) evs2.
Proof. intros. unfold run. apply fold_left_app. Qed.

Lemma run_cons : forall ev evs w, run w (ev :: evs) = run (step w ev) evs.
Proof. reflexivity. Qed.

Lemma run_one : forall ev w, run w [ev] = step w ev.
Proof. reflexivity. Qed.

Lemma loaded_records :
  forall sp sc w,
    personalInfo (view (step w (Loaded sp sc)))
      = loaded_personalInfo sp (personalInfo (view w)) /\
    apiConfig (view (step w (Loaded sp sc)))
      = loaded_apiConfig sc (apiConfig (view w)).
Proof.
  intros sp sc w.
  assert (H : personalInfo (view (loadSettings sp sc w))
                = loaded_personalInfo sp (personalInfo (view w)) /\
              apiConfig (view (loadSettings sp sc w))
                = loaded_apiConfig sc (apiConfig (view w))).
  { destruct sp, sc; split; reflexivity. }
  destruct H as (Hp & Hc).
  destruct (rerender_records (loadSettings sp sc w)) as (H1 & H2).
  unfold step. destruct sp, sc; try (rewrite H1, H2, Hp, Hc; auto).
  split; reflexivity.
Qed.

Section Loading.

Variable runtime_timeZone : string.
Variable initial_theme : ThemeMode.

(** C3: if [getPersonalInfo] answers absent, then whenever the answer
    arrives ([n] ms after mount) and whatever [getAPIConfig] answered, the
    view's PersonalInfo is the built-in default: empty name, email and
    avatar URL, the runtime's time zone, theme preference "system". *)
Theorem absent_personalInfo_keeps_default :
  forall (n : nat) (savedApiConfig : option APIConfig),
    let w := run (mount runtime_timeZone initial_theme)
               (repeat Tick n ++ [Loaded None savedApiConfig]) in
    personalInfo (view w) = default_personalInfo runtime_timeZone /\
    name (personalInfo (view w)) = EmptyString /\
    email (personalInfo (view w)) = EmptyString /\
    avatar_url (personalInfo (view w)) = EmptyString /\
    timezone (personalInfo (view w)) = runtime_timeZone /\
    theme_preference (personalInfo (view w)) = system.
Proof.
  intros n sc w.
  assert (H : personalInfo (view w) = default_personalInfo runtime_timeZone).
  { subst w. rewrite run_app, run_one.
    match goal with |- context [step ?a (Loaded None sc)] =>
      destruct (loaded_records None sc a) as (H1 & _) end.
    destruct (ticks_records n (mount runtime_timeZone initial_theme)) as (Hp & _).
    rewrite H1, Hp. reflexivity. }
  rewrite H. repeat split; reflexivity.
Qed.

(** C10: if [getAPIConfig] answers absent, the view's APIConfig is the
    initial one: api_type "ollama", the four string fields empty, the two
    n8n fields unset. *)
Theorem absent_apiConfig_keeps_default :
  forall (n : nat) (savedPersonalInfo : option PersonalInfo),
    let w := run (mount runtime_timeZone initial_theme)
               (repeat Tick n ++ [Loaded savedPersonalInfo None]) in
    apiConfig (view (mount runtime_timeZone initial_theme)) = default_apiConfig /\
    apiConfig (view w) = default_apiConfig /\
    api_type (apiConfig (view w)) = ollama /\
    ollama_base_url (apiConfig (view w)) = EmptyString /\
    comfyui_base_url (apiConfig (view w)) = EmptyString /\
    openai_api_key (apiConfig (view w)) = EmptyString /\
    openai_base_url (apiConfig (view w)) = EmptyString /\
    n8n_base_url (apiConfig (view w)) = None /\
    n8n_api_key (apiConfig (view w)) = None.
Proof.
  intros n sp w.
  assert (H : apiConfig (view w) = default_apiConfig).
  { subst w. rewrite run_app, run_one.
    match goal with |- context [step ?a (Loaded sp None)] =>
      destruct (loaded_records sp None a) as (_ & H2) end.
    destruct (ticks_records n (mount runtime_timeZone initial_theme)) as (_ & Hc).
    rewrite H2, Hc. reflexivity. }
  rewrite H. repeat split; reflexivity.
Qed.

(** C4 as stated fails: a stored record with a blank [openai_base_url] is
    not installed unchanged. *)
Lemma stored_blank_url_not_installed_unchanged :
  apiConfig (view (run (mount "UTC" system) [Loaded None (Some blank_url_config)]))
    <> blank_url_config.
Proof. vm_compute. discriminate. Qed.

(** C4, amended: a present stored APIConfig is installed with every field
    unchanged except [openai_base_url], which is replaced by
    "https://api.openai.com/v1" when the stored value is blank; a record
    with a non-blank [openai_base_url] is installed exactly.  This holds
    whatever happened between mount and the arrival of the answer. *)
Theorem present_apiConfig_installed_with_url_fallback :
  forall (history : list event) (savedPersonalInfo : option PersonalInfo)
         (c : APIConfig),
    let w := run (mount runtime_timeZone initial_theme)
               (history ++ [Loaded savedPersonalInfo (Some c)]) in
    ollama_base_url (apiConfig (view w)) = ollama_base_url c /\
    comfyui_base_url (apiConfig (view w)) = comfyui_base_url c /\
    openai_api_key (apiConfig (view w)) = openai_api_key c /\
    n8n_base_url (apiConfig (view w)) = n8n_base_url c /\
    n8n_api_key (apiConfig (view w)) = n8n_api_key c /\
    api_type (apiConfig (view w)) = api_type c /\
    openai_base_url (apiConfig (view w))
      = (if truthy (openai_base_url c) then openai_base_url c
         else "https://api.openai.com/v1"%string) /\
    (if truthy (openai_base_url c) then apiConfig (view w) = c
     else apiConfig (view w) = with_openai_base_url "https://api.openai.com/v1" c).
Proof.
  intros history sp c w.
  assert (H : apiConfig (view w)
              = with_openai_base_url
                  (js_or (openai_base_url c) openai_default_base_url) c).
  { subst w. rewrite run_app, run_one.
    match goal with |- context [step ?a (Loaded sp (Some c))] =>
      destruct (loaded_records sp (Some c) a) as (_ & H2) end.
    exact H2. }
  rewrite H. unfold js_or, openai_default_base_url.
  destruct c as [a b k u n1 n2 t]; simpl.
  destruct (truthy u); repeat split; reflexivity.
Qed.

End Loading.

(** ** Switching the API type *)

Lemma step_toggle_or_passive :
  forall ev w, toggle_or_passive ev = true ->
    with_api_type ollama (apiConfig (view (step w ev)))
      = with_api_type ollama (apiConfig (view w)).
Proof.
  intros ev w H. destruct ev as [e| | | |k ok]; try discriminate.
  - destruct e; try discriminate. unfold step.
    destruct (rerender_records (apply_edit (ClickApiType t) w)) as (_ & H2).
    rewrite H2. reflexivity.
  - reflexivity.
  - unfold step. destruct (tick_records w) as (_ & H2 & _). rewrite H2. reflexivity.
  - unfold step. destruct (settle_records k ok w) as (_ & H2 & _).
    rewrite H2. reflexivity.
Qed.

(** C5: over any sequence of clicks on the "ollama" / "openai" buttons
    (with time passing and saves completing in between), every APIConfig
    field other than [api_type] keeps its value; a click sets [api_type]
    to the clicked type. *)
Theorem api_type_switch_keeps_other_fields :
  forall (evs : list event) (w : World),
    forallb toggle_or_passive evs = true ->
    ollama_base_url (apiConfig (view (run w evs))) = ollama_base_url (apiConfig (view w)) /\
    comfyui_base_url (apiConfig (view (run w evs))) = comfyui_base_url (apiConfig (view w)) /\
    openai_api_key (apiConfig (view (run w evs))) = openai_api_key (apiConfig (view w)) /\
    openai_base_url (apiConfig (view (run w evs))) = openai_base_url (apiConfig (view w)) /\
    n8n_base_url (apiConfig (view (run w evs))) = n8n_base_url (apiConfig (view w)) /\
    n8n_api_key (apiConfig (view (run w evs))) = n8n_api_key (apiConfig (view w)) /\
    (forall t, apiConfig (view (step (run w evs) (Edit (ClickApiType t))))
               = with_api_type t (apiConfig (view w))).
Proof.
  intros evs w H.
  assert (E : with_api_type ollama (apiConfig (view (run w evs)))
              = with_api_type ollama (apiConfig (view w))).
  { revert w. induction evs as [|ev evs IH]; intros w; [reflexivity|].
    simpl in H. apply andb_true_iff in H. destruct H as (H1 & H2).
    rewrite run_cons, (IH H2). apply step_toggle_or_passive, H1. }
  assert (F : forall t, apiConfig (view (step (run w evs) (Edit (ClickApiType t))))
                        = with_api_type t (apiConfig (view w))).
  { intros t. unfold step.
    destruct (rerender_records (apply_edit (ClickApiType t) (run w evs))) as (_ & H2).
    rewrite H2. simpl. unfold with_api_type in *. injection E as -> -> -> -> -> ->.
    reflexivity. }
  unfold with_api_type in E. injection E as -> -> -> -> -> ->.
  repeat split; auto.
Qed.

Lemma api_type_switch_keeps_other_fields_witness :
  forallb toggle_or_passive sample_toggles = true /\
  ollama_base_url (apiConfig (view (run sample_loaded sample_toggles)))
    = "http://localhost:11434"%string /\
  openai_api_key (apiConfig (view (run sample_loaded sample_toggles)))
    = "sk-test"%string.
Proof.
  split; [reflexivity|].
  destruct (api_type_switch_keeps_other_fields sample_toggles sample_loaded
              eq_refl) as (H1 & _ & H3 & _).
  split; [rewrite H1 | rewrite H3]; reflexivity.
Defined.

(** ** Conditional rendering *)

(** C6: for every APIConfig exactly one of the two type-specific input
    groups is rendered: the Ollama base-URL group when [api_type] is
    "ollama", the OpenAI base-URL and API-key group when it is "openai". *)
Theorem exactly_one_api_group_rendered :
  forall v : Component,
    List.length (api_type_groups (apiConfig v)) = 1 /\
    api_type_groups (apiConfig v)
      = match api_type (apiConfig v) with
        | ollama => [OllamaGroup]
        | openai => [OpenAIGroup]
        end /\
    (In OllamaBaseUrlInput (render_settings v) <-> api_type (apiConfig v) = ollama) /\
    (In OpenAIBaseUrlInput (render_settings v) <-> api_type (apiConfig v) = openai) /\
    (In OpenAIApiKeyInput (render_settings v) <-> api_type (apiConfig v) = openai).
Proof.
  intros v. unfold render_settings, api_type_groups.
  destruct (api_type (apiConfig v)); simpl;
    repeat split; try reflexivity; try discriminate; intros H;
    repeat (destruct H as [H|H]; try discriminate H; try reflexivity);
    try contradiction; auto 12.
Qed.

(** ** The pending-timer invariant *)

Lemma filter_filter_comm :
  forall (A : Type) (f g : A -> bool) (l : list A),
    filter f (filter g l) = filter g (filter f l).
Proof.
  intros A f g l. induction l as [|a l IH]; [reflexivity|]. simpl.
  destruct (f a) eqn:Ef, (g a) eqn:Eg; simpl; rewrite ?Ef, ?Eg, IH; reflexivity.
Qed.

Lemma filter_none :
  forall (A : Type) (f : A -> bool) (l : list A),
    Forall (fun a => f a = false) l -> filter f l = [].
Proof.
  intros A f l H. induction H as [|a l Ha _ IH]; [reflexivity|].
  simpl. rewrite Ha. exact IH.
Qed.

Lemma filter_all :
  forall (A : Type) (f : A -> bool) (l : list A),
    Forall (fun a => f a = true) l -> filter f l = l.
Proof.
  intros A f l H. induction H as [|a l Ha _ IH]; [reflexivity|].
  simpl. rewrite Ha, IH. reflexivity.
Qed.

Lemma Forall_filter :
  forall (A : Type) (P : A -> Prop) (f : A -> bool) (l : list A),
    Forall P l -> Forall P (filter f l).
Proof.
  intros A P f l H. induction H as [|a l Ha _ IH]; simpl; [constructor|].
  destruct (f a); auto.
Qed.

Lemma NoDup_map_filter :
  forall (A B : Type) (h : A -> B) (f : A -> bool) (l : list A),
    NoDup (map h l) -> NoDup (map h (filter f l)).
Proof.
  intros A B h f l. induction l as [|a l IH]; simpl; intros H; [constructor|].
  inversion H as [|? ? Hn Hd]; subst. destruct (f a); simpl; auto.
  constructor; auto. intros Hin. apply Hn.
  apply in_map_iff in Hin. destruct Hin as (b & Hb & Hin).
  apply filter_In in Hin. apply in_map_iff. exists b. tauto.
Qed.

(** *** Clearing the ref's timer *)

Lemma clear_saveTimeout_host :
  forall w,
    next_handle (host (clear_saveTimeout w)) = next_handle (host w) /\
    now (host (clear_saveTimeout w)) = now (host w) /\
    pending (host (clear_saveTimeout w)) = pending (host w) /\
    calls (host (clear_saveTimeout w)) = calls (host w) /\
    theme (host (clear_saveTimeout w)) = theme (host w).
Proof.
  intros w. unfold clear_saveTimeout.
  destruct (saveTimeout (view w)) as [id|]; [|auto].
  destruct (id =? 0); simpl; auto.
Qed.

Lemma clear_saveTimeout_timers :
  forall w, exists f,
    timers (host (clear_saveTimeout w)) = filter f (timers (host w)).
Proof.
  intros w. unfold clear_saveTimeout.
  destruct (saveTimeout (view w)) as [id|].
  - destruct (id =? 0).
    + exists (fun _ => true). symmetry. apply filter_all, Forall_forall. auto.
    + eexists. reflexivity.
  - exists (fun _ => true). symmetry. apply filter_all, Forall_forall. auto.
Qed.

Lemma clear_saveTimeout_no_save :
  forall w, timer_inv w -> save_timers (clear_saveTimeout w) = [].
Proof.
  intros w I. unfold clear_saveTimeout, save_timers.
  pose proof (inv_owned w I) as Ho. unfold save_timers in Ho.
  destruct (saveTimeout (view w)) as [id|] eqn:E.
  - destruct (inv_ref w I id E) as (Hpos & _).
    destruct (Nat.eqb_spec id 0) as [->|_]; [lia|]. simpl.
    rewrite filter_filter_comm. apply filter_none.
    eapply Forall_impl; [|exact Ho]. intros x Hx. simpl in Hx.
    injection Hx as <-. rewrite Nat.eqb_refl. reflexivity.
  - destruct (filter is_save (timers (host w))) as [|x l]; [reflexivity|].
    inversion Ho; discriminate.
Qed.

Lemma clear_saveTimeout_inv :
  forall w, timer_inv w -> timer_inv (clear_saveTimeout w).
Proof.
  intros w I. pose proof (clear_saveTimeout_no_save w I) as Hs.
  destruct (clear_saveTimeout_host w) as (Hn & _).
  destruct (clear_saveTimeout_timers w) as (f & Ht).
  split.
  - rewrite Hn. apply I.
  - rewrite Hn, Ht. apply Forall_filter, I.
  - rewrite Ht. apply NoDup_map_filter, I.
  - rewrite Hn, clear_saveTimeout_view. apply I.
  - rewrite Hs. constructor.
Qed.

(** *** The effect *)

Lemma auto_save_effect_host :
  forall w,
    timers (host (auto_save_effect w))
      = timers (host (clear_saveTimeout w)) ++ [armed_timer w] /\
    next_handle (host (auto_save_effect w)) = S (next_handle (host w)) /\
    now (host (auto_save_effect w)) = now (host w) /\
    pending (host (auto_save_effect w)) = pending (host w) /\
    calls (host (auto_save_effect w)) = calls (host w) /\
    theme (host (auto_save_effect w)) = theme (host w) /\
    saveTimeout (view (auto_save_effect w)) = Some (next_handle (host w)) /\
    personalInfo (view (auto_save_effect w)) = personalInfo (view w) /\
    apiConfig (view (auto_save_effect w)) = apiConfig (view w).
Proof.
  intros w. destruct (clear_saveTimeout_host w) as (Hn & Ht & Hp & Hc & Hth).
  unfold auto_save_effect, armed_timer. simpl.
  rewrite Hn, Ht, Hp, Hc, Hth, !clear_saveTimeout_view. repeat split; reflexivity.
Qed.

Lemma auto_save_effect_save_timers :
  forall w, timer_inv w -> save_timers (auto_save_effect w) = [armed_timer w].
Proof.
  intros w I. destruct (auto_save_effect_host w) as (Ht & _).
  unfold save_timers. rewrite Ht, filter_app.
  pose proof (clear_saveTimeout_no_save w I) as Hs. unfold save_timers in Hs.
  rewrite Hs. reflexivity.
Qed.

Lemma auto_save_effect_inv :
  forall w, timer_inv w -> timer_inv (auto_save_effect w).
Proof.
  intros w I.
  pose proof (auto_save_effect_save_timers w I) as Hs.
  destruct (auto_save_effect_host w) as (Ht & Hn & _ & _ & _ & _ & Hr & _).
  pose proof (clear_saveTimeout_inv w I) as Ic.
  destruct (clear_saveTimeout_host w) as (Hcn & _).
  split.
  - rewrite Hn. lia.
  - rewrite Hn, Ht. apply Forall_app. split.
    + eapply Forall_impl; [|apply (inv_fresh _ Ic)]. simpl. intros x Hx. lia.
    + constructor; [|constructor]. simpl. pose proof (inv_next w I). lia.
  - rewrite Ht, map_app. simpl.
    apply NoDup_app; [apply (inv_nodup _ Ic) | repeat constructor; simpl; tauto |].
    intros a Ha [<-|[]]. apply in_map_iff in Ha. destruct Ha as (x & Hx & Hin).
    pose proof (inv_fresh _ Ic) as Hf. rewrite Forall_forall in Hf.
    specialize (Hf x Hin). lia.
  - rewrite Hr, Hn. intros id [= <-]. pose proof (inv_next w I). lia.
  - rewrite Hs, Hr. constructor; [reflexivity|constructor].
Qed.

Lemma auto_save_effect_snapshot :
  forall w, timer_inv w -> snapshot_inv (auto_save_effect w).
Proof.
  intros w I. unfold snapshot_inv.
  rewrite (auto_save_effect_save_timers w I).
  destruct (auto_save_effect_host w) as (_ & _ & Hnow & _ & _ & _ & _ & Hp & Hc).
  rewrite Hnow, Hp, Hc. constructor; [|constructor]. simpl.
  unfold debounce_ms. split; [reflexivity|lia].
Qed.

(** *** Re-rendering after the records changed *)

Lemma rerender_spec :
  forall w, timer_inv w ->
    timer_inv (rerender w) /\ snapshot_inv (rerender w) /\
    save_timers (rerender w)
      = [{| handle := next_handle (host w);
            deadline := now (host w) + debounce_ms;
            callback := SaveTask (personalInfo (view w)) (apiConfig (view w)) |}] /\
    now (host (rerender w)) = now (host w) /\
    pending (host (rerender w)) = pending (host w) /\
    calls (host (rerender w)) = calls (host w).
Proof.
  intros w I. unfold rerender, auto_save_cleanup.
  pose proof (clear_saveTimeout_inv w I) as Ic.
  destruct (clear_saveTimeout_host w) as (Hn & Ht & Hp & Hc & _).
  destruct (auto_save_effect_host (clear_saveTimeout w))
    as (_ & _ & Hnow & Hpe & Hca & _).
  split; [apply auto_save_effect_inv, Ic|].
  split; [apply auto_save_effect_snapshot, Ic|].
  split.
  - rewrite (auto_save_effect_save_timers _ Ic). unfold armed_timer.
    rewrite Hn, Ht, clear_saveTimeout_view. reflexivity.
  - rewrite Hnow, Hpe, Hca. auto.
Qed.

Lemma apply_edit_frame :
  forall e w,
    timers (host (apply_edit e w)) = timers (host w) /\
    next_handle (host (apply_edit e w)) = next_handle (host w) /\
    now (host (apply_edit e w)) = now (host w) /\
    pending (host (apply_edit e w)) = pending (host w) /\
    calls (host (apply_edit e w)) = calls (host w) /\
    saveTimeout (view (apply_edit e w)) = saveTimeout (view w).
Proof. intros e w. destruct e; simpl; repeat split; reflexivity. Qed.

Lemma loadSettings_frame :
  forall sp sc w,
    timers (host (loadSettings sp sc w)) = timers (host w) /\
    next_handle (host (loadSettings sp sc w)) = next_handle (host w) /\
    now (host (loadSettings sp sc w)) = now (host w) /\
    pending (host (loadSettings sp sc w)) = pending (host w) /\
    calls (host (loadSettings sp sc w)) = calls (host w) /\
    saveTimeout (view (loadSettings sp sc w)) = saveTimeout (view w).
Proof. intros sp sc w. destruct sp, sc; simpl; repeat split; reflexivity. Qed.

Lemma timer_inv_frame :
  forall w w',
    timers (host w') = timers (host w) ->
    next_handle (host w') = next_handle (host w) ->
    saveTimeout (view w') = saveTimeout (view w) ->
    timer_inv w -> timer_inv w'.
Proof.
  intros w w' Ht Hn Hr I.
  split; unfold save_timers; rewrite ?Ht, ?Hn, ?Hr; apply I.
Qed.

(** *** Time passing *)

Lemma fold_run_task_host :
  forall (due : list timer) (w : World),
    let w' := fold_left (fun w' x => run_task (callback x) w') due w in
    timers (host w') = timers (host w) /\
    next_handle (host w') = next_handle (host w) /\
    now (host w') = now (host w) /\
    calls (host w') = calls (host w) ++ started_calls due /\
    pending (host w') = pending (host w) ++ parked due.
Proof.
  induction due as [|x due IH]; intros w; simpl.
  - rewrite !app_nil_r. auto.
  - destruct (IH (run_task (callback x) w)) as (H1 & H2 & H3 & H4 & H5).
    rewrite H1, H2, H3, H4, H5.
    destruct (callback x); simpl; rewrite <- ?app_assoc; auto.
Qed.

Lemma tick_host :
  forall w,
    timers (host (tick w))
      = filter (fun x => negb (is_due (S (now (host w))) x)) (timers (host w)) /\
    next_handle (host (tick w)) = next_handle (host w) /\
    now (host (tick w)) = S (now (host w)) /\
    calls (host (tick w))
      = calls (host w) ++
        started_calls (filter (is_due (S (now (host w)))) (timers (host w))) /\
    pending (host (tick w))
      = pending (host w) ++
        parked (filter (is_due (S (now (host w)))) (timers (host w))).
Proof.
  intros w. unfold tick.
  match goal with |- context [fold_left ?f ?d ?a] =>
    destruct (fold_run_task_host d a) as (H1 & H2 & H3 & H4 & H5) end.
  rewrite H1, H2, H3, H4, H5. simpl. auto.
Qed.

Lemma tick_save_timers :
  forall w,
    save_timers (tick w)
      = filter (fun x => negb (is_due (S (now (host w))) x)) (save_timers w).
Proof.
  intros w. destruct (tick_host w) as (Ht & _).
  unfold save_timers. rewrite Ht. apply filter_filter_comm.
Qed.

Lemma tick_inv : forall w, timer_inv w -> timer_inv (tick w).
Proof.
  intros w I. destruct (tick_host w) as (Ht & Hn & _).
  destruct (tick_records w) as (_ & _ & Hr).
  split.
  - rewrite Hn. apply I.
  - rewrite Hn, Ht. apply Forall_filter, I.
  - rewrite Ht. apply NoDup_map_filter, I.
  - rewrite Hn, Hr. apply I.
  - rewrite tick_save_timers, Hr. apply Forall_filter, I.
Qed.

Lemma tick_snapshot : forall w, snapshot_inv w -> snapshot_inv (tick w).
Proof.
  intros w Sn. unfold snapshot_inv in *.
  destruct (tick_host w) as (_ & _ & Hnow & _).
  destruct (tick_records w) as (Hp & Hc & _).
  rewrite tick_save_timers, Hnow, Hp, Hc.
  rewrite Forall_forall in *. intros x Hx. apply filter_In in Hx.
  destruct Hx as (Hin & Hdue). destruct (Sn x Hin) as (Hcb & Hlo & Hhi).
  unfold is_due in Hdue. apply negb_true_iff, Nat.leb_gt in Hdue.
  split; [exact Hcb | lia].
Qed.

(** *** A save callback resuming *)

Lemma resume_host :
  forall k ok w, exists extra,
    timers (host (resume k ok w)) = timers (host w) ++ extra /\
    Forall (fun x => is_save x = false /\ handle x = next_handle (host w)) extra /\
    next_handle (host (resume k ok w)) = List.length extra + next_handle (host w) /\
    List.length extra <= 1 /\
    now (host (resume k ok w)) = now (host w).
Proof.
  intros [c|] [|] w; simpl;
    try (exists []; rewrite app_nil_r; repeat split; auto; fail).
  eexists [_]. repeat split; auto.
Qed.

Lemma settle_host :
  forall k ok w, exists extra,
    timers (host (settle k ok w)) = timers (host w) ++ extra /\
    Forall (fun x => is_save x = false /\ handle x = next_handle (host w)) extra /\
    next_handle (host (settle k ok w)) = List.length extra + next_handle (host w) /\
    List.length extra <= 1 /\
    now (host (settle k ok w)) = now (host w).
Proof.
  intros k ok w. unfold settle.
  destruct (nth_error (pending (host w)) k) as [c|].
  - match goal with |- context [resume c ok ?a] =>
      destruct (resume_host c ok a) as (extra & H) end.
    exists extra. exact H.
  - exists []. rewrite app_nil_r. repeat split; auto.
Qed.

Lemma settle_save_timers :
  forall k ok w, save_timers (settle k ok w) = save_timers w.
Proof.
  intros k ok w. destruct (settle_host k ok w) as (extra & Ht & He & _).
  unfold save_timers. rewrite Ht, filter_app.
  rewrite (filter_none _ is_save extra), app_nil_r; [reflexivity|].
  eapply Forall_impl; [|exact He]. simpl. tauto.
Qed.

Lemma settle_inv : forall k ok w, timer_inv w -> timer_inv (settle k ok w).
Proof.
  intros k ok w I.
  destruct (settle_host k ok w) as (extra & Ht & He & Hn & Hl & _).
  destruct (settle_records k ok w) as (_ & _ & Hr).
  pose proof (inv_next w I) as Hpos.
  split.
  - rewrite Hn. lia.
  - rewrite Hn, Ht. apply Forall_app. split.
    + eapply Forall_impl; [|apply (inv_fresh w I)]. simpl. intros; lia.
    + destruct extra as [|x [|y l]]; simpl in *; try lia; [constructor|].
      inversion He as [|? ? (_ & Hx) _]; subst.
      constructor; [lia|constructor].
  - rewrite Ht, map_app.
    apply NoDup_app; [apply I | |].
    + destruct extra as [|x [|y l]]; simpl in *; try lia; repeat constructor.
      simpl. tauto.
    + intros a Ha Hb. apply in_map_iff in Ha. destruct Ha as (x & <- & Hx).
      apply in_map_iff in Hb. destruct Hb as (y & Hy & Hin).
      pose proof (inv_fresh w I) as Hf. rewrite Forall_forall in Hf, He.
      specialize (Hf x Hx). destruct (He y Hin) as (_ & Hh). lia.
  - rewrite Hr, Hn. intros id Hid. pose proof (inv_ref w I id Hid). lia.
  - rewrite settle_save_timers, Hr. apply I.
Qed.

Lemma settle_snapshot :
  forall k ok w, snapshot_inv w -> snapshot_inv (settle k ok w).
Proof.
  intros k ok w Sn. unfold snapshot_inv in *.
  destruct (settle_host k ok w) as (extra & _ & _ & _ & _ & Hnow).
  destruct (settle_records k ok w) as (Hp & Hc & _).
  rewrite settle_save_timers, Hnow, Hp, Hc. exact Sn.
Qed.

(** *** Every event preserves the invariant *)

Lemma step_inv :
  forall ev w, timer_inv w /\ snapshot_inv w ->
               timer_inv (step w ev) /\ snapshot_inv (step w ev).
Proof.
  intros ev w (I & Sn). destruct ev as [e| |sp sc| |k ok]; unfold step.
  - destruct (apply_edit_frame e w) as (Ht & Hn & _ & _ & _ & Hr).
    pose proof (timer_inv_frame w _ Ht Hn Hr I) as I'.
    destruct (rerender_spec _ I') as (H1 & H2 & _). auto.
  - split; [|exact Sn].
    apply (timer_inv_frame w); auto.
  - destruct (loadSettings_frame sp sc w) as (Ht & Hn & _ & _ & _ & Hr).
    pose proof (timer_inv_frame w _ Ht Hn Hr I) as I'.
    destruct (rerender_spec _ I') as (H1 & H2 & _).
    destruct sp, sc; auto.
  - split; [apply tick_inv, I | apply tick_snapshot, Sn].
  - split; [apply settle_inv, I | apply settle_snapshot, Sn].
Qed.

Lemma run_inv :
  forall evs w, timer_inv w /\ snapshot_inv w ->
                timer_inv (run w evs) /\ snapshot_inv (run w evs).
Proof.
  induction evs as [|ev evs IH]; intros w H; [exact H|].
  rewrite run_cons. apply IH, step_inv, H.
Qed.

Lemma mount_inv :
  forall tz th, timer_inv (mount tz th) /\ snapshot_inv (mount tz th).
Proof.
  intros tz th.
  assert (I0 : timer_inv {| view := initial_component tz; host := initial_host th |}).
  { split; simpl; try (constructor; fail); try lia. discriminate. }
  split; [apply auto_save_effect_inv, I0 | apply auto_save_effect_snapshot, I0].
Qed.

Lemma reachable_inv :
  forall tz th evs,
    timer_inv (run (mount tz th) evs) /\ snapshot_inv (run (mount tz th) evs).
Proof. intros. apply run_inv, mount_inv. Qed.

(** At most one element when all elements share a key and keys are unique. *)
Lemma owned_at_most_one :
  forall (l : list timer) (id : option nat),
    NoDup (map handle l) ->
    Forall (fun x => id = Some (handle x)) l ->
    List.length l <= 1.
Proof.
  intros [|x [|y l]] id Hd Ho; simpl; try lia.
  inversion Ho as [|? ? Hx Ho']; subst. inversion Ho' as [|? ? Hy _]; subst.
  injection Hy as Hy. inversion Hd as [|? ? Hn _]; subst.
  exfalso. apply Hn. simpl. auto.
Qed.

(** *** Which timers start a save when they expire *)

Lemma started_calls_save_only :
  forall l, started_calls l = started_calls (filter is_save l).
Proof.
  induction l as [|x l IH]; [reflexivity|]. simpl. unfold is_save at 1.
  destruct (callback x) eqn:E; simpl; rewrite ?E, IH; reflexivity.
Qed.

Lemma parked_save_only :
  forall l, parked l = parked (filter is_save l).
Proof.
  induction l as [|x l IH]; [reflexivity|]. simpl. unfold is_save at 1.
  destruct (callback x) eqn:E; simpl; rewrite ?E, IH; reflexivity.
Qed.

Lemma tick_calls :
  forall w,
    calls (host (tick w))
      = calls (host w) ++
        started_calls (filter (is_due (S (now (host w)))) (save_timers w)) /\
    pending (host (tick w))
      = pending (host w) ++
        parked (filter (is_due (S (now (host w)))) (save_timers w)).
Proof.
  intros w. destruct (tick_host w) as (_ & _ & _ & Hc & Hp).
  rewrite Hc, Hp, started_calls_save_only, parked_save_only.
  unfold save_timers. rewrite !(filter_filter_comm _ is_save). auto.
Qed.

Lemma In_remove_nth :
  forall (A : Type) (k : nat) (l : list A) (a : A),
    In a (remove_nth k l) -> In a l.
Proof.
  intros A k l. revert k. induction l as [|x l IH]; intros k a H; [destruct k; exact H|].
  destruct k as [|k]; simpl in *; [auto|]. destruct H as [H|H]; eauto.
Qed.

Lemma settle_calls :
  forall k ok w,
    (exists l, calls (host (settle k ok w)) = calls (host w) ++ l /\
               Forall (continues (pending (host w))) l) /\
    (forall ac, In (AwaitUpdatePersonalInfo ac) (pending (host (settle k ok w))) ->
                In (AwaitUpdatePersonalInfo ac) (pending (host w))).
Proof.
  intros k ok w. unfold settle.
  destruct (nth_error (pending (host w)) k) as [c|] eqn:E.
  - apply nth_error_In in E.
    destruct c as [ac|], ok; simpl.
    + split.
      * exists [updateAPIConfig ac]. split; [reflexivity|].
        constructor; [|constructor]. exists ac. auto.
      * intros ac' H. apply in_app_or in H. destruct H as [H|[H|[]]].
        -- eapply In_remove_nth, H.
        -- discriminate.
    + split; [exists []; rewrite app_nil_r; auto|].
      intros ac' H. eapply In_remove_nth, H.
    + split; [exists []; rewrite app_nil_r; auto|].
      intros ac' H. eapply In_remove_nth, H.
    + split; [exists []; rewrite app_nil_r; auto|].
      intros ac' H. eapply In_remove_nth, H.
  - split; [exists []; rewrite app_nil_r; auto|auto].
Qed.

(** *** No save starts while changes keep coming *)

Lemma in_burst_change :
  forall c0 p0 since w w',
    in_burst c0 p0 since w ->
    timers (host w') = timers (host w) ->
    next_handle (host w') = next_handle (host w) ->
    now (host w') = now (host w) ->
    pending (host w') = pending (host w) ->
    calls (host w') = calls (host w) ->
    saveTimeout (view w') = saveTimeout (view w) ->
    in_burst c0 p0 0 (rerender w').
Proof.
  intros c0 p0 since w w' B Ht Hn Hnow Hp Hc Hr.
  pose proof (timer_inv_frame w w' Ht Hn Hr (burst_timer_inv _ _ _ _ B)) as I'.
  destruct (rerender_spec w' I') as (I2 & _ & Hs & Hnow2 & Hp2 & Hc2).
  split.
  - exact I2.
  - unfold debounce_ms. lia.
  - rewrite Hs, Hnow2. constructor; [simpl; lia|constructor].
  - rewrite Hc2, Hc. apply B.
  - rewrite Hp2, Hp. apply B.
Qed.

Lemma in_burst_step :
  forall c0 p0 ev since w,
    in_burst c0 p0 since w ->
    quiet since [ev] = true ->
    in_burst c0 p0
      (if changes_records ev then 0 else if is_tick ev then S since else since)
      (step w ev).
Proof.
  intros c0 p0 ev since w B Q.
  destruct ev as [e| |sp sc| |k ok]; simpl in *.
  - destruct (apply_edit_frame e w) as (Ht & Hn & Hnow & Hp & Hc & Hr).
    eapply in_burst_change; eauto.
  - destruct B as [I Hs Hd Hc Hp]. split; auto.
    apply (timer_inv_frame w); auto.
  - destruct (loadSettings_frame sp sc w) as (Ht & Hn & Hnow & Hp & Hc & Hr).
    destruct sp as [p|], sc as [c|]; simpl;
      try (eapply in_burst_change; eauto; fail).
    exact B.
  - rewrite andb_true_r in Q. apply Nat.ltb_lt in Q.
    destruct B as [I Hs Hd Hc Hp].
    destruct (tick_host w) as (_ & _ & Hnow & _).
    destruct (tick_calls w) as (Hc' & Hp').
    assert (Hnone : filter (is_due (S (now (host w)))) (save_timers w) = []).
    { apply filter_none. eapply Forall_impl; [|exact Hd]. simpl. intros x Hx.
      unfold is_due. apply Nat.leb_gt. lia. }
    rewrite Hnone in Hc', Hp'. simpl in Hc', Hp'. rewrite app_nil_r in Hc', Hp'.
    split.
    + apply tick_inv, I.
    + exact Q.
    + rewrite tick_save_timers, Hnow. apply Forall_filter.
      eapply Forall_impl; [|exact Hd]. simpl. intros; lia.
    + rewrite Hc'. exact Hc.
    + rewrite Hp'. exact Hp.
  - destruct B as [I Hs Hd Hc Hp].
    destruct (settle_host k ok w) as (extra & _ & _ & _ & _ & Hnow).
    destruct (settle_calls k ok w) as ((l & Hl & Hfl) & Hp').
    split.
    + apply settle_inv, I.
    + exact Hs.
    + rewrite settle_save_timers, Hnow. exact Hd.
    + destruct Hc as (l0 & Hl0 & Hfl0). exists (l0 ++ l). split.
      * rewrite Hl, Hl0, app_assoc. reflexivity.
      * apply Forall_app. split; [exact Hfl0|].
        eapply Forall_impl; [|exact Hfl]. intros c (ac & -> & Hin).
        exists ac. auto.
    + auto.
Qed.

Lemma in_burst_run :
  forall c0 p0 evs since w,
    in_burst c0 p0 since w ->
    quiet since evs = true ->
    exists since', in_burst c0 p0 since' (run w evs).
Proof.
  intros c0 p0 evs. induction evs as [|ev evs IH]; intros since w B Q.
  - exists since. exact B.
  - rewrite run_cons.
    assert (Q1 : quiet since [ev] = true).
    { simpl in *. destruct (changes_records ev); [reflexivity|].
      destruct (is_tick ev); [|reflexivity].
      apply andb_true_iff in Q. rewrite (proj1 Q). reflexivity. }
    pose proof (in_burst_step c0 p0 ev since w B Q1) as B'.
    eapply IH; [exact B'|].
    simpl in Q. destruct (changes_records ev); [exact Q|].
    destruct (is_tick ev); [|exact Q].
    apply andb_true_iff in Q. tauto.
Qed.

(** *** The timer expires [debounce_ms] after the latest change *)

Lemma quiet_unchanging :
  forall post since,
    forallb unchanging post = true ->
    since + ticks post < debounce_ms ->
    quiet since post = true.
Proof.
  induction post as [|ev post IH]; intros since Hu Ht; [reflexivity|].
  simpl in Hu. apply andb_true_iff in Hu. destruct Hu as (Hev & Hu).
  unfold unchanging in Hev. apply negb_true_iff in Hev.
  simpl. rewrite Hev. unfold ticks in Ht. simpl in Ht.
  destruct (is_tick ev); simpl in Ht.
  - apply andb_true_iff. split.
    + apply Nat.ltb_lt. lia.
    + apply IH; [exact Hu|]. unfold ticks. lia.
  - apply IH; [exact Hu|]. unfold ticks. lia.
Qed.

Lemma waiting_run :
  forall post w t r,
    forallb unchanging post = true ->
    save_timers w = [t] ->
    deadline t = now (host w) + r ->
    ticks post < r ->
    save_timers (run w post) = [t] /\
    now (host (run w post)) = now (host w) + ticks post /\
    personalInfo (view (run w post)) = personalInfo (view w) /\
    apiConfig (view (run w post)) = apiConfig (view w).
Proof.
  induction post as [|ev post IH]; intros w t r Hu Hs Hd Ht.
  - unfold ticks. simpl. rewrite Nat.add_0_r. auto.
  - simpl in Hu. apply andb_true_iff in Hu. destruct Hu as (Hev & Hu).
    rewrite run_cons. unfold ticks in *. simpl in Ht.
    assert (Hsame : forall w',
              save_timers w' = save_timers w ->
              now (host w') = now (host w) ->
              personalInfo (view w') = personalInfo (view w) ->
              apiConfig (view w') = apiConfig (view w) ->
              is_tick ev = false ->
              save_timers (run w' post) = [t] /\
              now (host (run w' post))
                = now (host w) + List.length (filter is_tick (ev :: post)) /\
              personalInfo (view (run w' post)) = personalInfo (view w) /\
              apiConfig (view (run w' post)) = apiConfig (view w)).
    { intros w' E1 E2 E3 E4 E5. simpl. rewrite E5 in *.
      destruct (IH w' t r Hu) as (H1 & H2 & H3 & H4);
        [rewrite E1; exact Hs | rewrite E2; exact Hd | exact Ht |].
      rewrite H1, H2, H3, H4, E2, E3, E4. auto. }
    destruct ev as [e| |sp sc| |k ok]; try discriminate Hev.
    + apply Hsame; reflexivity.
    + destruct sp, sc; try discriminate Hev. apply Hsame; reflexivity.
    + clear Hsame. simpl in Ht |- *.
      destruct (tick_host w) as (_ & _ & Hnow & _).
      destruct (tick_records w) as (Hp & Hc & _).
      assert (Hs' : save_timers (tick w) = [t]).
      { rewrite tick_save_timers, Hs. simpl. unfold is_due.
        destruct (Nat.leb_spec (deadline t) (S (now (host w)))); [lia|reflexivity]. }
      destruct (IH (tick w) t (r - 1) Hu Hs') as (H1 & H2 & H3 & H4);
        [rewrite Hnow; lia | lia |].
      rewrite H1, H2, H3, H4, Hnow, Hp, Hc. repeat split; auto; lia.
    + destruct (settle_host k ok w) as (extra & _ & _ & _ & _ & Hnow).
      destruct (settle_records k ok w) as (Hp & Hc & _).
      apply Hsame; [apply settle_save_timers | assumption ..| reflexivity].
Qed.

Lemma nth_error_snoc :
  forall (A : Type) (l : list A) (a : A), nth_error (l ++ [a]) (List.length l) = Some a.
Proof.
  intros A l a. rewrite nth_error_app2, Nat.sub_diag; [reflexivity|lia].
Qed.

Lemma remove_nth_snoc :
  forall (A : Type) (l : list A) (a : A), remove_nth (List.length l) (l ++ [a]) = l.
Proof.
  intros A l a. induction l as [|x l IH]; [reflexivity|]. simpl. rewrite IH. reflexivity.
Qed.

Lemma edit_arms_timer :
  forall e w, timer_inv w ->
    save_timers (step w (Edit e))
      = [{| handle := next_handle (host w);
            deadline := now (host w) + debounce_ms;
            callback := SaveTask (personalInfo (view (step w (Edit e))))
                                 (apiConfig (view (step w (Edit e)))) |}] /\
    now (host (step w (Edit e))) = now (host w).
Proof.
  intros e w I. unfold step.
  destruct (apply_edit_frame e w) as (Ht & Hn & Hnow & _ & _ & Hr).
  pose proof (timer_inv_frame w _ Ht Hn Hr I) as I'.
  destruct (rerender_spec _ I') as (_ & _ & Hs & Hnow2 & _).
  destruct (rerender_records (apply_edit e w)) as (Hp & Hc).
  rewrite Hs, Hp, Hc, Hn, Hnow, Hnow2. auto.
Qed.

Section Debounce.

Variable runtime_timeZone : string.
Variable initial_theme : ThemeMode.

(** C1 as stated fails: a write can occur between two edits that are
    100 ms apart.  The save of the defaults has made its first write when
    the first edit comes; the edit clears the timer, not the running
    callback, which issues [updateAPIConfig] when its first write is
    fulfilled, before the second edit. *)
Lemma write_between_two_quick_edits :
  let w0 := run (mount "UTC" system) defaults_save_in_flight in
  quiet 0 (between_quick_edits ++ [Edit (ChangeName "Ad")]) = true /\
  ticks between_quick_edits = 100 /\
  calls (host (run w0 first_quick_edit))
    = [updatePersonalInfo (default_personalInfo "UTC")] /\
  calls (host (run w0 (Edit (ChangeName "A") :: between_quick_edits)))
    = [updatePersonalInfo (default_personalInfo "UTC");
       updateAPIConfig default_apiConfig] /\
  calls (host (run w0 (Edit (ChangeName "A") :: between_quick_edits
                       ++ [Edit (ChangeName "Ad")])))
    = [updatePersonalInfo (default_personalInfo "UTC");
       updateAPIConfig default_apiConfig].
Proof. vm_compute. repeat split. Qed.

(** C1, amended: every edit replaces the waiting save timer by a new one
    that expires 600 ms later.  While changes keep arriving less than
    600 ms apart, no save starts: [updatePersonalInfo] is not called, and
    the only writes the collaborator receives are the [updateAPIConfig]
    of saves that had already made their first write before the burst.
    On the 600th millisecond after the last edit the save starts, and it
    passes the records as they were at that edit to [updatePersonalInfo]
    and, once that write succeeds, to [updateAPIConfig]. *)
Theorem burst_persists_only_final_snapshot :
  forall (history : list event) (e : edit) (evs post : list event),
    quiet 0 evs = true ->
    forallb unchanging post = true ->
    S (ticks post) = debounce_ms ->
    let w0 := run (mount runtime_timeZone initial_theme) history in
    let w_last := step w0 (Edit e) in
    let w1 := run w_last post in
    save_timers w_last
      = [{| handle := next_handle (host w0);
            deadline := now (host w0) + 600;
            callback := SaveTask (personalInfo (view w_last))
                                 (apiConfig (view w_last)) |}] /\
    (exists l, calls (host (run w0 (Edit e :: evs))) = calls (host w0) ++ l /\
               Forall (continues (pending (host w0))) l) /\
    (exists l, calls (host w1) = calls (host w0) ++ l /\
               Forall (continues (pending (host w0))) l) /\
    calls (host (step w1 Tick))
      = calls (host w1) ++ [updatePersonalInfo (personalInfo (view w_last))] /\
    pending (host (step w1 Tick))
      = pending (host w1) ++ [AwaitUpdatePersonalInfo (apiConfig (view w_last))] /\
    calls (host (run w1 [Tick; Settle (List.length (pending (host w1))) true]))
      = calls (host w1) ++ [updatePersonalInfo (personalInfo (view w_last));
                            updateAPIConfig (apiConfig (view w_last))].
Proof.
  intros history e evs post Q Hu Ht w0 w_last w1.
  destruct (reachable_inv runtime_timeZone initial_theme history) as (I0 & _).
  fold w0 in I0.
  destruct (edit_arms_timer e w0 I0) as (Harm & Hnow). fold w_last in Harm, Hnow.
  assert (Bw0 : forall tr, quiet 0 tr = true ->
               exists l, calls (host (run w0 (Edit e :: tr))) = calls (host w0) ++ l /\
                         Forall (continues (pending (host w0))) l).
  { intros tr Qtr.
    assert (B : in_burst (calls (host w0)) (pending (host w0)) 0 (step w0 (Edit e))).
    { destruct (apply_edit_frame e w0) as (Ht0 & Hn0 & _ & Hp0 & Hc0 & Hr0).
      pose proof (timer_inv_frame w0 _ Ht0 Hn0 Hr0 I0) as I'.
      destruct (rerender_spec _ I') as (I2 & _ & Hs & Hnow2 & Hp2 & Hc2).
      unfold step. split.
      - exact I2.
      - unfold debounce_ms. lia.
      - rewrite Hs, Hnow2. constructor; [simpl; lia|constructor].
      - rewrite Hc2, Hc0. exists []. rewrite app_nil_r. auto.
      - rewrite Hp2, Hp0. auto. }
    destruct (in_burst_run _ _ tr 0 _ B Qtr) as (s' & B').
    rewrite run_cons. apply B'. }
  split; [exact Harm|]. split; [apply Bw0, Q|].
  split.
  { unfold w1, w_last. rewrite <- run_cons. apply Bw0.
    apply quiet_unchanging; [exact Hu|]. unfold debounce_ms in *. lia. }
  destruct (waiting_run post w_last _ debounce_ms Hu Harm) as (Hs1 & Hnow1 & Hp1 & Hc1);
    [rewrite Hnow; reflexivity | lia |].
  fold w1 in Hs1, Hnow1, Hp1, Hc1.
  destruct (tick_calls w1) as (Hcalls & Hpend).
  assert (Hdue : filter (is_due (S (now (host w1)))) (save_timers w1)
                 = save_timers w1).
  { rewrite Hs1. apply filter_all. constructor; [|constructor].
    unfold is_due. simpl. apply Nat.leb_le. rewrite Hnow1, Hnow. lia. }
  rewrite Hdue, Hs1 in Hcalls, Hpend.
  unfold started_calls in Hcalls. unfold parked in Hpend.
  simpl in Hcalls, Hpend.
  change (tick w1) with (step w1 Tick) in Hcalls, Hpend.
  split; [exact Hcalls|]. split; [exact Hpend|].
  rewrite run_cons, run_one.
  set (w2 := step w1 Tick) in *.
  change (step w2 (Settle (List.length (pending (host w1))) true))
    with (settle (List.length (pending (host w1))) true w2).
  unfold settle. rewrite Hpend, nth_error_snoc. simpl.
  rewrite Hcalls, <- app_assoc. reflexivity.
Qed.

End Debounce.

Lemma burst_persists_only_final_snapshot_witness :
  quiet 0 ada_wait = true /\
  forallb unchanging ada_wait = true /\
  S (ticks ada_wait) = debounce_ms /\
  let w0 := run (mount "UTC" system) ada_history in
  let w_last := step w0 (Edit (ChangeEmail "a@b.com")) in
  let w1 := run w_last ada_wait in
  calls (host (run w1 [Tick; Settle (List.length (pending (host w1))) true]))
    = calls (host w1) ++ [updatePersonalInfo (personalInfo (view w_last));
                          updateAPIConfig (apiConfig (view w_last))].
Proof.
  split; [vm_compute; reflexivity|].
  split; [vm_compute; reflexivity|].
  split; [vm_compute; reflexivity|].
  exact (proj2 (proj2 (proj2 (proj2 (proj2
    (burst_persists_only_final_snapshot "UTC" system ada_history
       (ChangeEmail "a@b.com") ada_wait ada_wait
       eq_refl eq_refl eq_refl)))))).
Defined.

(** ** At most one pending save *)

(** C2: in every state reachable from mount, at most one debounced save
    is waiting, and it is the timer the ref points to.  An edit leaves
    exactly one waiting save timer, a new one (its handle is larger than
    the handle of any timer that was waiting before); the effect's first
    line and its cleanup each leave none. *)
Theorem at_most_one_pending_save :
  forall (runtime_timeZone : string) (initial_theme : ThemeMode)
         (evs : list event) (e : edit),
    let w := run (mount runtime_timeZone initial_theme) evs in
    List.length (save_timers w) <= 1 /\
    Forall (fun x => saveTimeout (view w) = Some (handle x)) (save_timers w) /\
    save_timers (clear_saveTimeout w) = [] /\
    save_timers (auto_save_cleanup w) = [] /\
    save_timers (unmount w) = [] /\
    save_timers (step w (Edit e))
      = [{| handle := next_handle (host w);
            deadline := now (host w) + 600;
            callback := SaveTask (personalInfo (view (step w (Edit e))))
                                 (apiConfig (view (step w (Edit e)))) |}] /\
    Forall (fun x => handle x < next_handle (host w)) (save_timers w).
Proof.
  intros tz th evs e w.
  destruct (reachable_inv tz th evs) as (I & _). fold w in I.
  split.
  { eapply owned_at_most_one; [|apply (inv_owned w I)].
    unfold save_timers. apply NoDup_map_filter, I. }
  split; [apply I|].
  split; [apply clear_saveTimeout_no_save, I|].
  split; [apply clear_saveTimeout_no_save, I|].
  split; [apply clear_saveTimeout_no_save, I|].
  split; [apply edit_arms_timer, I|].
  unfold save_timers. apply Forall_filter.
  eapply Forall_impl; [|apply (inv_fresh w I)]. simpl. intros x Hx. lia.
Qed.

(** ** Outcome of a save *)

Lemma settle_last :
  forall w l c ok,
    pending (host w) = l ++ [c] ->
    settle (List.length l) ok w = resume c ok (on_host (with_pending l) w).
Proof.
  intros w l c ok H. unfold settle. rewrite H, nth_error_snoc. f_equal.
  unfold on_host. rewrite H, remove_nth_snoc. reflexivity.
Qed.

(** C7: when the write a save callback is waiting for is rejected, be it
    [updatePersonalInfo] or [updateAPIConfig], the status becomes "error",
    the two records in memory stay as they are, no further write is
    issued and no timer is added.  When [updateAPIConfig] is fulfilled
    (so both writes succeeded) the status becomes "success".  The same
    holds for a save followed from the moment its timer fires. *)
Theorem save_outcome_sets_status :
  forall (w : World) (k : nat) (c : continuation)
         (p : PersonalInfo) (a : APIConfig),
    nth_error (pending (host w)) k = Some c ->
    (saveStatus (view (step w (Settle k false))) = error /\
     isSaving (view (step w (Settle k false))) = false /\
     personalInfo (view (step w (Settle k false))) = personalInfo (view w) /\
     apiConfig (view (step w (Settle k false))) = apiConfig (view w) /\
     calls (host (step w (Settle k false))) = calls (host w) /\
     timers (host (step w (Settle k false))) = timers (host w) /\
     pending (host (step w (Settle k false))) = remove_nth k (pending (host w))) /\
    match c with
    | AwaitUpdatePersonalInfo ac =>
        calls (host (step w (Settle k true))) = calls (host w) ++ [updateAPIConfig ac] /\
        saveStatus (view (step w (Settle k true))) = saveStatus (view w)
    | AwaitUpdateAPIConfig =>
        saveStatus (view (step w (Settle k true))) = success /\
        isSaving (view (step w (Settle k true))) = false /\
        calls (host (step w (Settle k true))) = calls (host w)
    end /\
    personalInfo (view (step w (Settle k true))) = personalInfo (view w) /\
    apiConfig (view (step w (Settle k true))) = apiConfig (view w) /\
    let fired := run_task (SaveTask p a) w in
    let n := List.length (pending (host w)) in
    saveStatus (view (run fired [Settle n false])) = error /\
    saveStatus (view (run fired [Settle n true; Settle n false])) = error /\
    saveStatus (view (run fired [Settle n true; Settle n true])) = success /\
    calls (host (run fired [Settle n false]))
      = calls (host w) ++ [updatePersonalInfo p] /\
    calls (host (run fired [Settle n true; Settle n false]))
      = calls (host w) ++ [updatePersonalInfo p; updateAPIConfig a] /\
    calls (host (run fired [Settle n true; Settle n true]))
      = calls (host w) ++ [updatePersonalInfo p; updateAPIConfig a].
Proof.
  intros w k c p a Hk.
  split.
  { unfold step, settle. rewrite Hk. destruct c; simpl; repeat split; reflexivity. }
  split.
  { unfold step, settle. rewrite Hk. destruct c; simpl; repeat split; reflexivity. }
  destruct (settle_records k true w) as (Hp & Hc & _).
  split; [exact Hp|]. split; [exact Hc|].
  intros fired n.
  assert (E1 : forall ok, step fired (Settle n ok)
                 = resume (AwaitUpdatePersonalInfo a) ok
                     (on_host (with_pending (pending (host w))) fired)).
  { intros ok. apply settle_last. reflexivity. }
  assert (E2 : forall ok, step (step fired (Settle n true)) (Settle n ok)
                 = resume AwaitUpdateAPIConfig ok
                     (on_host (with_pending (pending (host w)))
                        (step fired (Settle n true)))).
  { intros ok. apply settle_last. rewrite (E1 true). reflexivity. }
  unfold run. cbn [fold_left]. rewrite !E2, !E1. simpl.
  rewrite <- !app_assoc. repeat split; reflexivity.
Qed.

Lemma save_outcome_sets_status_witness :
  nth_error (pending (host first_save_due)) 0
    = Some (AwaitUpdatePersonalInfo default_apiConfig) /\
  saveStatus (view (step first_save_due (Settle 0 false))) = error /\
  apiConfig (view (step first_save_due (Settle 0 false)))
    = apiConfig (view first_save_due).
Proof.
  split; [vm_compute; reflexivity|].
  destruct (save_outcome_sets_status first_save_due 0
              (AwaitUpdatePersonalInfo default_apiConfig)
              (default_personalInfo "UTC") default_apiConfig eq_refl)
    as ((H1 & _ & _ & H4 & _) & _).
  split; [exact H1 | exact H4].
Defined.

End SettingsSpec.

(* ================================================================== *)
(** * Properties of the context menu *)

Module WidgetContextMenuSpec.
Import WidgetContextMenu.

(** ** Paths *)

Lemma strip_prefix_app :
  forall p r, strip_prefix p (p ++ r) = Some r.
Proof.
  induction p as [|a p IH]; intros r; simpl; [reflexivity|].
  rewrite Nat.eqb_refl. apply IH.
Qed.

Lemma strip_prefix_Some :
  forall p l r, strip_prefix p l = Some r -> l = p ++ r.
Proof.
  induction p as [|a p IH]; intros l r H; simpl in *.
  - injection H as <-. reflexivity.
  - destruct l as [|b l]; [discriminate|].
    destruct (Nat.eqb_spec a b) as [<-|_]; [|discriminate].
    f_equal. apply IH, H.
Qed.

Lemma lineage_head :
  forall path d l, lineage d path = Some l -> exists l', l = d :: l'.
Proof.
  intros [|i path] d l H; simpl in H.
  - injection H as <-. eauto.
  - destruct (nth_error (dom_children d) i) as [c|]; [|discriminate].
    destruct (lineage c path) as [l0|]; [|discriminate].
    injection H as <-. eauto.
Qed.

Lemma lineage_app :
  forall p1 d m, node_at d p1 = Some m ->
    exists up, forall p2, lineage d (p1 ++ p2) = option_map (app up) (lineage m p2).
Proof.
  induction p1 as [|i p1 IH]; intros d m H; simpl in H.
  - injection H as <-. exists []. intros p2. simpl.
    destruct (lineage d p2); reflexivity.
  - destruct (nth_error (dom_children d) i) as [c|] eqn:E; [|discriminate].
    destruct (IH c m H) as (up & Hup). exists (d :: up). intros p2.
    simpl. rewrite E, Hup. destruct (lineage m p2); reflexivity.
Qed.

Lemma find_is_some :
  forall (A : Type) (f : A -> bool) (l : list A) (a : A),
    In a l -> f a = true -> exists b, find f l = Some b.
Proof.
  intros A f l a Hin Ha. destruct (find f l) as [b|] eqn:E; [eauto|].
  rewrite (find_none f l E a Hin) in Ha. discriminate.
Qed.

Section Menu.

Variable W : Type.
Variable p : ContextMenuProps W.

Lemma menu_matches :
  matches_class "context-menu" (to_dom (render p)) = true.
Proof. reflexivity. Qed.

(** A target inside the mounted menu always has the menu's root among its
    inclusive ancestors. *)
Lemma inside_menu_closest :
  forall page menu_at rel chain,
    node_at page menu_at = Some (to_dom (render p)) ->
    inclusive_ancestors page (menu_at ++ rel) = Some chain ->
    exists d, closest "context-menu" chain = Some d.
Proof.
  intros page menu_at rel chain Hm Hc.
  destruct (lineage_app menu_at page _ Hm) as (up & Hup).
  unfold inclusive_ancestors in Hc. rewrite Hup in Hc.
  destruct (lineage (to_dom (render p)) rel) as [l|] eqn:El; [|discriminate].
  destruct (lineage_head _ _ _ El) as (l' & ->).
  simpl in Hc. injection Hc as <-.
  apply (find_is_some _ _ _ (to_dom (render p))); [|apply menu_matches].
  apply in_rev. rewrite rev_involutive. apply in_or_app. right. left. reflexivity.
Qed.

End Menu.

(** ** The remove control *)

(** C9: the remove control is rendered exactly when [showRemove] is true
    and [onRemoveWidget] is supplied; with [showRemove] false, or left
    out, it is not rendered whatever [onRemoveWidget] is. *)
Theorem remove_control_only_when_enabled :
  forall (W : Type) (p : ContextMenuProps W),
    is_some (control_index RemoveWidget p)
      = showRemove_or_default p && is_some (onRemoveWidget p) /\
    (forall px py (close : W -> W) (add rearrange remove : option (W -> W)),
       control_index RemoveWidget
         {| x := px; y := py; onClose := close; onAddWidget := add;
            onRemoveWidget := remove; onRearrangeWidgets := rearrange;
            showRemove := Some false |} = None) /\
    (forall px py (close : W -> W) (add rearrange remove : option (W -> W)),
       control_index RemoveWidget
         {| x := px; y := py; onClose := close; onAddWidget := add;
            onRemoveWidget := remove; onRearrangeWidgets := rearrange;
            showRemove := None |} = None).
Proof.
  intros W p. split; [|split].
  - destruct p as [px py close [fa|] [fm|] [fr|] [[|]|]]; reflexivity.
  - intros px py close [fa|] [fr|] [fm|]; reflexivity.
  - intros px py close [fa|] [fr|] [fm|]; reflexivity.
Qed.

(** ** Clicks *)

(** C8 as stated fails: the target [0;0] is an element outside the
    subtree of the menu mounted at [1], yet the click does not invoke
    [onClose]. *)
Lemma outside_click_inside_other_menu_does_not_close :
  node_at two_menus_page [1] = Some (to_dom (render counting_props)) /\
  node_at two_menus_page [0; 0] = Some (DElement "span" [] [DText "other"]) /\
  strip_prefix [1] [0; 0] = None /\
  option_map invoked (click true counting_props two_menus_page [1] [0; 0] (0, 0))
    = Some [] /\
  option_map invoked (click false counting_props two_menus_page [1] [0; 0] (0, 0))
    = Some [] /\
  option_map world (click true counting_props two_menus_page [1] [0; 0] (0, 0))
    = Some (0, 0).
Proof. repeat split; reflexivity. Qed.

(** C8, amended: with the menu mounted in a page, a click on a rendered
    action button (or on the icon inside it) invokes the button's callback
    once and then [onClose] once, and nothing else.  A click on an element
    that has no inclusive ancestor of class "context-menu" invokes
    [onClose] once and no action callback.  A click on an element outside
    the menu that lies inside another element of class "context-menu"
    invokes nothing. *)
Theorem click_invocations :
  forall (W : Type) (stops_native : bool) (p : ContextMenuProps W)
         (page : dom) (menu_at : list nat) (w : W),
    node_at page menu_at = Some (to_dom (render p)) ->
    (forall a n, control_index a p = Some n ->
       exists f,
         callback_of a p = Some f /\
         click stops_native p page menu_at (menu_at ++ [n]) w
           = Some {| world := onClose p (f w);
                     invoked := [invocation_of a; Called_onClose];
                     propagationStopped := true |} /\
         click stops_native p page menu_at (menu_at ++ [n; 0]) w
           = Some {| world := onClose p (f w);
                     invoked := [invocation_of a; Called_onClose];
                     propagationStopped := true |}) /\
    (forall target t cl ch up,
       inclusive_ancestors page target = Some (DElement t cl ch :: up) ->
       closest "context-menu" (DElement t cl ch :: up) = None ->
       click stops_native p page menu_at target w
         = Some {| world := onClose p w;
                   invoked := [Called_onClose];
                   propagationStopped := false |}) /\
    (forall target t cl ch up other,
       inclusive_ancestors page target = Some (DElement t cl ch :: up) ->
       strip_prefix menu_at target = None ->
       closest "context-menu" (DElement t cl ch :: up) = Some other ->
       click stops_native p page menu_at target w
         = Some {| world := w; invoked := []; propagationStopped := false |}).
Proof.
  intros W stops_native p page menu_at w Hm.
  split; [|split].
  - intros a n Hn.
    destruct (lineage_app menu_at page _ Hm) as (up & Hup).
    assert (Hclick : forall rel b,
              lineage (to_dom (render p)) rel = Some [to_dom (render p); b] \/
              (exists c, lineage (to_dom (render p)) rel
                         = Some [to_dom (render p); c; b]) ->
              (exists t cl ch, b = DElement t cl ch) ->
              forall d1,
                bubble (vnode_ancestors (render p) rel []) 
                  {| world := w; invoked := []; propagationStopped := false |} = d1 ->
                propagationStopped d1 = true ->
                click stops_native p page menu_at (menu_at ++ rel) w = Some d1).
    { intros rel b Hl (t & cl & ch & ->) d1 Hb Hs.
      assert (Hchain : exists up',
                inclusive_ancestors page (menu_at ++ rel)
                  = Some (DElement t cl ch :: up')).
      { unfold inclusive_ancestors. rewrite Hup.
        destruct Hl as [Hl|(c & Hl)]; rewrite Hl; simpl;
          rewrite rev_app_distr; simpl; eauto. }
      destruct Hchain as (up' & Hchain).
      destruct (inside_menu_closest W p page menu_at rel _ Hm Hchain) as (d & Hd).
      unfold click. rewrite Hchain, strip_prefix_app, Hb, Hs.
      unfold handleClickOutside. rewrite Hd.
      destruct stops_native; reflexivity. }
    destruct p as [px py close [fa|] [fm|] [fr|] [[|]|]]; destruct a;
      try discriminate Hn; injection Hn as <-;
      eexists; (split; [reflexivity|]);
      (split;
        (eapply Hclick;
          [ first [left; reflexivity | right; eexists; reflexivity]
          | do 3 eexists; reflexivity
          | reflexivity
          | reflexivity ])).
  - intros target t cl ch up Hc Hnone.
    unfold click. rewrite Hc.
    destruct (strip_prefix menu_at target) as [rel|] eqn:Es.
    + apply strip_prefix_Some in Es. subst target.
      destruct (inside_menu_closest W p page menu_at rel _ Hm Hc) as (d & Hd).
      rewrite Hd in Hnone. discriminate.
    + simpl. rewrite andb_false_r. unfold handleClickOutside.
      rewrite Hnone. reflexivity.
  - intros target t cl ch up other Hc Hs Hother.
    unfold click. rewrite Hc, Hs. simpl. rewrite andb_false_r.
    unfold handleClickOutside. rewrite Hother. reflexivity.
Qed.

Lemma click_invocations_witness :
  node_at two_menus_page [1] = Some (to_dom (render counting_props)) /\
  control_index AddWidget counting_props = Some 0 /\
  option_map world (click true counting_props two_menus_page [1] ([1] ++ [0]) (0, 0))
    = Some (1, 1) /\
  inclusive_ancestors two_menus_page [2; 0]
    = Some [DElement "p" [] [DText "dashboard"];
            DElement "main" [] [DElement "p" [] [DText "dashboard"]];
            two_menus_page] /\
  option_map world (click true counting_props two_menus_page [1] [2; 0] (0, 0))
    = Some (0, 1).
Proof.
  split; [reflexivity|]. split; [reflexivity|].
  destruct (click_invocations (nat * nat) true counting_props two_menus_page [1]
              (0, 0) eq_refl) as (H1 & H2 & _).
  split.
  - destruct (H1 AddWidget 0 eq_refl) as (f & Hf & Hc & _).
    injection Hf as <-. rewrite Hc. reflexivity.
  - split; [reflexivity|].
    rewrite (H2 [2; 0] _ _ _ _ eq_refl eq_refl). reflexivity.
Defined.

End WidgetContextMenuSpec.

(* ================================================================== *)
(** * Further properties of the Settings view *)

Module SettingsExtra.
Import Settings SettingsSpec.

(** ** Time-zone options *)

(** X3: whatever the runtime does, the list of time-zone options is not
    empty: it is the runtime's list when that list has an entry, and the
    nine built-in zones when the function is missing, throws or returns
    nothing.  The built-in zones are pairwise different, and each option
    element uses its zone as key, value and text. *)
Theorem timezoneOptions_never_empty :
  forall intl : supportedValuesOf,
    timezoneOptions intl <> [] /\
    timezoneOptions intl
      = match intl with
        | Returns (z :: zs) => z :: zs
        | _ => fallback_timezoneOptions
        end /\
    map (fun o => fst (fst o)) (timezone_option_elements intl) = timezoneOptions intl /\
    map (fun o => snd (fst o)) (timezone_option_elements intl) = timezoneOptions intl /\
    map snd (timezone_option_elements intl) = timezoneOptions intl /\
    List.length fallback_timezoneOptions = 9 /\
    NoDup fallback_timezoneOptions.
Proof.
  intros intl.
  assert (Hmap : forall l : list string,
            map (fun o => fst (fst o)) (map (fun tz => (tz, tz, tz)) l) = l /\
            map (fun o => snd (fst o)) (map (fun tz => (tz, tz, tz)) l) = l /\
            map snd (map (fun tz => (tz, tz, tz)) l) = l).
  { induction l as [|a l (H1 & H2 & H3)]; simpl; [auto|].
    rewrite H1, H2, H3. auto. }
  destruct (Hmap (timezoneOptions intl)) as (H1 & H2 & H3).
  unfold timezone_option_elements.
  split; [|split; [|split; [exact H1|split; [exact H2|split; [exact H3|split]]]]].
  - destruct intl as [| |[|z zs]]; discriminate.
  - destruct intl as [| |[|z zs]]; reflexivity.
  - reflexivity.
  - unfold fallback_timezoneOptions.
    repeat (constructor; [simpl; intuition discriminate|]). constructor.
Qed.

(** ** What the controls display *)

Lemma js_or_empty : forall s, js_or s EmptyString = s.
Proof. intros [|a s]; reflexivity. Qed.

Lemma control_value_records :
  forall c v v',
    personalInfo v' = personalInfo v -> apiConfig v' = apiConfig v ->
    control_value c v' = control_value c v.
Proof. intros c v v' Hp Hc. destruct c; simpl; rewrite ?Hp, ?Hc; reflexivity. Qed.

Lemma edit_view_values :
  forall c e w,
    control_value c (view (step w (Edit e)))
      = control_value c (view (apply_edit e w)).
Proof.
  intros c e w. destruct (rerender_records (apply_edit e w)) as (Hp & Hc).
  apply control_value_records; assumption.
Qed.

(** X4: an edit coming from an input or select makes that control
    display the value the event carried and leaves what every other
    control displays as it was; a click on an API-type button changes no
    displayed value. *)
Theorem edit_writes_its_own_control :
  forall (e : edit) (w : World) (c : control) (s : string),
    edit_target e = Some (c, s) ->
    control_value c (view (step w (Edit e))) = Some s /\
    (forall c', control_eqb c' c = false ->
       control_value c' (view (step w (Edit e))) = control_value c' (view w)) /\
    (forall t c',
       control_value c' (view (step w (Edit (ClickApiType t))))
         = control_value c' (view w)).
Proof.
  intros e w c s H. split; [|split].
  - rewrite edit_view_values.
    destruct e; simpl in H; try discriminate; injection H as <- <-; simpl;
      rewrite ?js_or_empty; reflexivity.
  - intros c' Hc'. rewrite edit_view_values.
    destruct e; simpl in H; try discriminate; injection H as <- <-;
      destruct c'; try discriminate Hc'; reflexivity.
  - intros t c'. rewrite edit_view_values. destruct c'; reflexivity.
Qed.

Lemma edit_writes_its_own_control_witness :
  edit_target (ChangeN8nBaseUrl "http://localhost:5678")
    = Some (N8nBaseUrlInput, "http://localhost:5678"%string) /\
  control_value N8nBaseUrlInput
    (view (step (mount "UTC" system) (Edit (ChangeN8nBaseUrl "http://localhost:5678"))))
    = Some "http://localhost:5678"%string.
Proof.
  split; [reflexivity|].
  exact (proj1 (edit_writes_its_own_control
                  (ChangeN8nBaseUrl "http://localhost:5678")
                  (mount "UTC" system) N8nBaseUrlInput
                  "http://localhost:5678" eq_refl)).
Defined.

(** ** Loading a stored PersonalInfo *)

Lemma clear_saveTimeout_theme :
  forall w, theme (host (clear_saveTimeout w)) = theme (host w).
Proof. intros w. apply (clear_saveTimeout_host w). Qed.

Lemma rerender_theme :
  forall w, theme (host (rerender w)) = theme (host w).
Proof.
  intros w. unfold rerender, auto_save_cleanup.
  destruct (auto_save_effect_host (clear_saveTimeout w))
    as (_ & _ & _ & _ & _ & Ht & _).
  rewrite Ht. apply clear_saveTimeout_theme.
Qed.

(** X2: a stored PersonalInfo that is present is installed exactly as it
    is, whatever the form held before, and its theme preference is handed
    to the theme controller; when it is absent the form's PersonalInfo and
    the theme stay as they are. *)
Theorem present_personalInfo_installed_exactly :
  forall (w : World) (p : PersonalInfo) (savedApiConfig : option APIConfig),
    personalInfo (view (step w (Loaded (Some p) savedApiConfig))) = p /\
    theme (host (step w (Loaded (Some p) savedApiConfig))) = theme_preference p /\
    personalInfo (view (step w (Loaded None savedApiConfig)))
      = personalInfo (view w) /\
    theme (host (step w (Loaded None savedApiConfig))) = theme (host w).
Proof.
  intros w p sc.
  destruct (loaded_records (Some p) sc w) as (H1 & _).
  destruct (loaded_records None sc w) as (H2 & _).
  split; [exact H1|]. split; [|split; [exact H2|]].
  - unfold step. destruct sc; rewrite rerender_theme; reflexivity.
  - unfold step. destruct sc; [rewrite rerender_theme|]; reflexivity.
Qed.

(** ** The theme controller follows the form *)

Lemma fold_run_task_misc :
  forall (due : list timer) (w : World),
    let w' := fold_left (fun w' x => run_task (callback x) w') due w in
    theme (host w') = theme (host w) /\
    isSaving (view w') = isSaving (view w) /\
    showApiKey (view w') = showApiKey (view w) /\
    saveStatus (view w')
      = (if existsb is_reset due then idle else saveStatus (view w)).
Proof.
  induction due as [|x due IH]; intros w; simpl; [auto|].
  destruct (IH (run_task (callback x) w)) as (H1 & H2 & H3 & H4).
  rewrite H1, H2, H3, H4. unfold is_reset, is_save.
  destruct (callback x); simpl; repeat split; try reflexivity.
  destruct (existsb _ due); reflexivity.
Qed.

Lemma tick_misc :
  forall w,
    theme (host (tick w)) = theme (host w) /\
    isSaving (view (tick w)) = isSaving (view w) /\
    showApiKey (view (tick w)) = showApiKey (view w) /\
    saveStatus (view (tick w))
      = (if existsb is_reset
              (filter (is_due (S (now (host w)))) (timers (host w)))
         then idle else saveStatus (view w)).
Proof.
  intros w. unfold tick.
  match goal with |- context [fold_left ?f ?d ?a] =>
    destruct (fold_run_task_misc d a) as (H1 & H2 & H3 & H4) end.
  rewrite H1, H2, H3, H4. simpl. auto.
Qed.

Lemma settle_theme :
  forall k ok w, theme (host (settle k ok w)) = theme (host w).
Proof.
  intros k ok w. unfold settle.
  destruct (nth_error (pending (host w)) k) as [[c|]|]; destruct ok; reflexivity.
Qed.

Lemma step_theme_sync :
  forall ev w,
    syncs_theme ev = true \/
    theme (host w) = theme_preference (personalInfo (view w)) ->
    theme (host (step w ev))
      = theme_preference (personalInfo (view (step w ev))).
Proof.
  intros ev w H. destruct ev as [e| |sp sc| |k ok].
  - unfold step. destruct (rerender_records (apply_edit e w)) as (Hp & _).
    rewrite rerender_theme, Hp.
    destruct e; simpl in *; try reflexivity;
      destruct H as [H|H]; try discriminate H; exact H.
  - destruct H as [H|H]; [discriminate|exact H].
  - destruct (loaded_records sp sc w) as (Hp & _). rewrite Hp.
    unfold step. destruct sp as [p|], sc as [c|]; rewrite ?rerender_theme; simpl;
      try reflexivity; destruct H as [H|H]; try discriminate H; exact H.
  - destruct H as [H|H]; [discriminate|].
    destruct (tick_misc w) as (Ht & _). destruct (tick_records w) as (Hp & _).
    unfold step. rewrite Ht, Hp. exact H.
  - destruct H as [H|H]; [discriminate|].
    destruct (settle_records k ok w) as (Hp & _).
    unfold step. rewrite settle_theme, Hp. exact H.
Qed.

(** X1: once the user has picked a theme or a stored PersonalInfo has
    been loaded, the theme controller holds the form's theme preference
    after every later event; a theme picked in the select reaches the
    controller in the same step, without any write to the collaborator. *)
Theorem theme_controller_follows_preference :
  forall (w : World) (ev : event) (evs : list event) (m : ThemeMode),
    syncs_theme ev = true ->
    theme (host (run (step w ev) evs))
      = theme_preference (personalInfo (view (run (step w ev) evs))) /\
    theme (host (step w (Edit (ChangeTheme m)))) = m /\
    calls (host (step w (Edit (ChangeTheme m)))) = calls (host w).
Proof.
  intros w ev evs m H. split; [|split].
  - assert (H0 : theme (host (step w ev))
                 = theme_preference (personalInfo (view (step w ev)))).
    { apply step_theme_sync. left. exact H. }
    revert H0. generalize (step w ev). clear H.
    induction evs as [|ev' evs IH]; intros w' H0; [exact H0|].
    rewrite run_cons. apply IH, step_theme_sync. right. exact H0.
  - unfold step. rewrite rerender_theme. reflexivity.
  - unfold step, rerender, auto_save_cleanup.
    destruct (auto_save_effect_host
                (clear_saveTimeout (apply_edit (ChangeTheme m) w)))
      as (_ & _ & _ & _ & Hc & _).
    rewrite Hc. apply (clear_saveTimeout_host (apply_edit (ChangeTheme m) w)).
Qed.

Lemma theme_controller_follows_preference_witness :
  syncs_theme (Edit (ChangeTheme dark)) = true /\
  theme (host (run (step (mount "UTC" system) (Edit (ChangeTheme dark)))
                 [Tick; Edit (ChangeName "Ada"); Tick]))
    = theme_preference
        (personalInfo
           (view (run (step (mount "UTC" system) (Edit (ChangeTheme dark)))
                    [Tick; Edit (ChangeName "Ada"); Tick]))).
Proof.
  split; [reflexivity|].
  exact (proj1 (theme_controller_follows_preference (mount "UTC" system)
                  (Edit (ChangeTheme dark))
                  [Tick; Edit (ChangeName "Ada"); Tick] light eq_refl)).
Defined.

(** ** The save badge *)

Lemma rerender_status :
  forall w, isSaving (view (rerender w)) = true /\
            saveStatus (view (rerender w)) = idle.
Proof.
  intros w. unfold rerender, auto_save_cleanup, auto_save_effect. simpl. auto.
Qed.

Lemma step_keeps_saving :
  forall ev w,
    is_settle ev = false ->
    changes_records ev = true \/ isSaving (view w) = true ->
    isSaving (view (step w ev)) = true.
Proof.
  intros ev w Hs H. destruct ev as [e| |sp sc| |k ok]; try discriminate Hs.
  - apply rerender_status.
  - destruct H as [H|H]; [discriminate|exact H].
  - unfold step. destruct sp, sc; try apply rerender_status.
    destruct H as [H|H]; [discriminate|exact H].
  - destruct H as [H|H]; [discriminate|].
    destruct (tick_misc w) as (_ & Hi & _). unfold step. rewrite Hi. exact H.
Qed.

(** X5: from a change of the records on, the badge reads "Saving..." on
    grey until a save callback resumes: neither time passing (the
    debounce wait, a status reset) nor further input changes it.  The
    badge's text and colour always go together. *)
Theorem badge_says_saving_until_a_save_resumes :
  forall (w : World) (ev : event) (evs : list event),
    changes_records ev = true ->
    forallb (fun ev' => negb (is_settle ev')) evs = true ->
    badge_label (view (run (step w ev) evs)) = "Saving..."%string /\
    badge_colour (view (run (step w ev) evs)) = "bg-gray-400"%string /\
    (forall v : Component,
       (badge_label v, badge_colour v) = ("Saving..."%string, "bg-gray-400"%string) \/
       (badge_label v, badge_colour v) = ("Saved!"%string, "bg-green-500"%string) \/
       (badge_label v, badge_colour v) = ("Error!"%string, "bg-red-500"%string) \/
       (badge_label v, badge_colour v) = ("Auto Save"%string, "bg-sakura-500"%string)).
Proof.
  intros w ev evs Hc Hn.
  assert (H : isSaving (view (run (step w ev) evs)) = true).
  { assert (H0 : isSaving (view (step w ev)) = true).
    { apply step_keeps_saving; [destruct ev; try discriminate Hc; reflexivity|].
      left. exact Hc. }
    revert H0 Hn. generalize (step w ev). clear Hc.
    induction evs as [|ev' evs IH]; intros w' H0 Hn; [exact H0|].
    simpl in Hn. apply andb_true_iff in Hn. destruct Hn as (H1 & H2).
    rewrite run_cons. apply IH; [|exact H2].
    apply step_keeps_saving; [apply negb_true_iff, H1|right; exact H0]. }
  unfold badge_label, badge_colour. rewrite H.
  split; [reflexivity|]. split; [reflexivity|].
  intros v. destruct (isSaving v); [auto|].
  destruct (saveStatus v); auto.
Qed.

Lemma badge_says_saving_until_a_save_resumes_witness :
  changes_records (Edit (ChangeName "Ada")) = true /\
  forallb (fun ev' => negb (is_settle ev')) [Tick; ToggleShowApiKey; Tick] = true /\
  badge_label (view (run (step (mount "UTC" system) (Edit (ChangeName "Ada")))
                       [Tick; ToggleShowApiKey; Tick])) = "Saving..."%string.
Proof.
  split; [reflexivity|]. split; [reflexivity|].
  exact (proj1 (badge_says_saving_until_a_save_resumes (mount "UTC" system)
                  (Edit (ChangeName "Ada")) [Tick; ToggleShowApiKey; Tick]
                  eq_refl eq_refl)).
Defined.

(** ** Showing or hiding the n8n key *)







(** ** Saves nobody asked for *)

Lemma save_fires_on_expiry :
  forall (w : World) (t : timer) (p : PersonalInfo) (c : APIConfig)
         (post : list event),
    save_timers w = [t] ->
    callback t = SaveTask p c ->
    deadline t = now (host w) + debounce_ms ->
    forallb unchanging post = true ->
    S (ticks post) = debounce_ms ->
    let w1 := run w post in
    calls (host (step w1 Tick)) = calls (host w1) ++ [updatePersonalInfo p] /\
    pending (host (step w1 Tick))
      = pending (host w1) ++ [AwaitUpdatePersonalInfo c] /\
    calls (host (run w1 [Tick; Settle (List.length (pending (host w1))) true]))
      = calls (host w1) ++ [updatePersonalInfo p; updateAPIConfig c].
Proof.
  intros w t p c post Hs Hcb Hd Hu Ht w1.
  destruct (waiting_run post w t debounce_ms Hu Hs Hd) as (Hs1 & Hnow1 & _);
    [lia|].
  fold w1 in Hs1, Hnow1.
  destruct (tick_calls w1) as (Hcalls & Hpend).
  assert (Hdue : filter (is_due (S (now (host w1)))) (save_timers w1)
                 = save_timers w1).
  { rewrite Hs1. apply filter_all. constructor; [|constructor].
    unfold is_due. apply Nat.leb_le. rewrite Hnow1, Hd. lia. }
  rewrite Hdue, Hs1 in Hcalls, Hpend.
  unfold started_calls in Hcalls. unfold parked in Hpend.
  simpl in Hcalls, Hpend. rewrite Hcb in Hcalls, Hpend.
  simpl in Hcalls, Hpend.
  change (tick w1) with (step w1 Tick) in Hcalls, Hpend.
  split; [exact Hcalls|]. split; [exact Hpend|].
  rewrite run_cons, run_one.
  set (w2 := step w1 Tick) in *.
  change (step w2 (Settle (List.length (pending (host w1))) true))
    with (settle (List.length (pending (host w1))) true w2).
  unfold settle. rewrite Hpend, nth_error_snoc. simpl.
  rewrite Hcalls, <- app_assoc. reflexivity.
Qed.

Lemma continues_nothing :
  forall l : list db_call, Forall (continues []) l -> l = [].
Proof.
  intros [|c l] H; [reflexivity|].
  inversion H as [|? ? (ac & _ & []) _].
Qed.

(** X7: mounting the view arms a save by itself.  If the records do not
    change for 600 ms after mount (nothing is typed and no stored record
    arrives in that time), nothing is written during the wait and the
    600th millisecond writes the built-in default PersonalInfo, followed
    by the default APIConfig once that write is fulfilled. *)
Theorem mount_saves_defaults_after_debounce :
  forall (runtime_timeZone : string) (initial_theme : ThemeMode)
         (post : list event),
    forallb unchanging post = true ->
    S (ticks post) = debounce_ms ->
    let w1 := run (mount runtime_timeZone initial_theme) post in
    calls (host w1) = [] /\
    calls (host (step w1 Tick))
      = [updatePersonalInfo (default_personalInfo runtime_timeZone)] /\
    calls (host (run w1 [Tick; Settle (List.length (pending (host w1))) true]))
      = [updatePersonalInfo (default_personalInfo runtime_timeZone);
         updateAPIConfig default_apiConfig].
Proof.
  intros tz th post Hu Ht w1.
  set (w0 := {| view := initial_component tz; host := initial_host th |}).
  assert (I0 : timer_inv w0).
  { split; simpl; try (constructor; fail); try lia. discriminate. }
  pose proof (auto_save_effect_save_timers w0 I0) as Hs.
  assert (B : in_burst [] [] 0 (mount tz th)).
  { split.
    - apply mount_inv.
    - unfold debounce_ms. lia.
    - unfold mount. fold w0. rewrite Hs. constructor; [reflexivity|constructor].
    - exists []. split; [reflexivity|constructor].
    - intros ac H. exact H. }
  assert (Q : quiet 0 post = true).
  { apply quiet_unchanging; [exact Hu|]. lia. }
  destruct (in_burst_run [] [] post 0 _ B Q) as (s' & B').
  destruct (burst_calls _ _ _ _ B') as (l & Hl & Hfl).
  apply continues_nothing in Hfl. subst l. simpl in Hl. fold w1 in Hl.
  destruct (save_fires_on_expiry (mount tz th) (armed_timer w0)
              (default_personalInfo tz) default_apiConfig post Hs
              eq_refl eq_refl Hu Ht) as (H1 & _ & H3).
  fold w1 in H1, H3. rewrite Hl in H1, H3.
  split; [exact Hl|]. split; [exact H1|exact H3].
Qed.

Lemma mount_saves_defaults_after_debounce_witness :
  forallb unchanging (Loaded None None :: repeat Tick 599) = true /\
  S (ticks (Loaded None None :: repeat Tick 599)) = debounce_ms /\
  calls (host (step (run (mount "UTC" system) (Loaded None None :: repeat Tick 599))
                 Tick))
    = [updatePersonalInfo (default_personalInfo "UTC")].
Proof.
  split; [vm_compute; reflexivity|]. split; [vm_compute; reflexivity|].
  exact (proj1 (proj2 (mount_saves_defaults_after_debounce "UTC" system
                         (Loaded None None :: repeat Tick 599)
                         eq_refl eq_refl))).
Defined.

(** X8: the arrival of a stored record counts as a change: 600 ms after
    it, with no further change, the view writes back what it has just
    installed, i.e. the stored PersonalInfo (or the form's, if none was
    stored) and then the stored APIConfig with the base-URL fallback
    applied, so a blank stored [openai_base_url] is replaced in storage
    without any user input. *)
Theorem loaded_records_are_written_back :
  forall (runtime_timeZone : string) (initial_theme : ThemeMode)
         (history : list event)
         (savedPersonalInfo : option PersonalInfo)
         (savedApiConfig : option APIConfig) (post : list event),
    changes_records (Loaded savedPersonalInfo savedApiConfig) = true ->
    forallb unchanging post = true ->
    S (ticks post) = debounce_ms ->
    let w0 := run (mount runtime_timeZone initial_theme) history in
    let w1 := run (step w0 (Loaded savedPersonalInfo savedApiConfig)) post in
    let written_info :=
      match savedPersonalInfo with
      | Some p => p
      | None => personalInfo (view w0)
      end in
    let written_config :=
      match savedApiConfig with
      | Some c =>
          with_openai_base_url
            (if truthy (openai_base_url c) then openai_base_url c
             else "https://api.openai.com/v1"%string) c
      | None => apiConfig (view w0)
      end in
    calls (host (step w1 Tick))
      = calls (host w1) ++ [updatePersonalInfo written_info] /\
    calls (host (run w1 [Tick; Settle (List.length (pending (host w1))) true]))
      = calls (host w1) ++ [updatePersonalInfo written_info;
                            updateAPIConfig written_config].
Proof.
  intros tz th history sp sc post Hch Hu Ht w0 w1 wi wc.
  destruct (reachable_inv tz th history) as (I0 & _). fold w0 in I0.
  destruct (loadSettings_frame sp sc w0) as (Htm & Hn & Hnow & _ & _ & Hr).
  pose proof (timer_inv_frame w0 _ Htm Hn Hr I0) as I'.
  destruct (rerender_spec _ I') as (_ & _ & Hs & Hnow2 & _).
  assert (Hstep : step w0 (Loaded sp sc) = rerender (loadSettings sp sc w0)).
  { destruct sp, sc; try reflexivity. discriminate Hch. }
  assert (Hpi : personalInfo (view (loadSettings sp sc w0)) = wi).
  { destruct sp, sc; reflexivity. }
  assert (Hac : apiConfig (view (loadSettings sp sc w0)) = wc).
  { destruct sp, sc; reflexivity. }
  rewrite Hpi, Hac, Hn, Hnow in Hs. rewrite <- Hstep in Hs, Hnow2.
  destruct (save_fires_on_expiry (step w0 (Loaded sp sc)) _ wi wc post Hs
              eq_refl) as (H1 & _ & H3); [| exact Hu | exact Ht |].
  - rewrite Hnow2, Hnow. reflexivity.
  - fold w1 in H1, H3. split; [exact H1|exact H3].
Qed.

Lemma loaded_records_are_written_back_witness :
  changes_records (Loaded None (Some blank_url_config)) = true /\
  forallb unchanging (repeat Tick 599) = true /\
  S (ticks (repeat Tick 599)) = debounce_ms /\
  let w1 := run (step (run (mount "UTC" system) [])
                   (Loaded None (Some blank_url_config))) (repeat Tick 599) in
  calls (host (run w1 [Tick; Settle (List.length (pending (host w1))) true]))
    = calls (host w1) ++
      [updatePersonalInfo (personalInfo (view (run (mount "UTC" system) [])));
       updateAPIConfig
         (with_openai_base_url "https://api.openai.com/v1" blank_url_config)].
Proof.
  split; [reflexivity|]. split; [vm_compute; reflexivity|].
  split; [vm_compute; reflexivity|].
  exact (proj2 (loaded_records_are_written_back "UTC" system []
                  None (Some blank_url_config) (repeat Tick 599)
                  eq_refl eq_refl eq_refl)).
Defined.

(** ** The status reset is never cancelled *)

Lemma clear_saveTimeout_ref :
  forall w, ref_is_save w -> ref_is_save (clear_saveTimeout w).
Proof.
  intros w R. unfold ref_is_save in *.
  destruct (clear_saveTimeout_timers w) as (f & Ht).
  rewrite Ht, clear_saveTimeout_view. apply Forall_filter, R.
Qed.

Lemma auto_save_effect_ref :
  forall w, timer_inv w -> ref_is_save (auto_save_effect w).
Proof.
  intros w I. unfold ref_is_save.
  destruct (auto_save_effect_host w) as (Ht & _ & _ & _ & _ & _ & Hr & _).
  rewrite Ht, Hr. apply Forall_app. split.
  - pose proof (inv_fresh _ (clear_saveTimeout_inv w I)) as Hf.
    destruct (clear_saveTimeout_host w) as (Hn & _). rewrite Hn in Hf.
    eapply Forall_impl; [|exact Hf]. simpl. intros x Hx [= E]. lia.
  - constructor; [|constructor]. reflexivity.
Qed.

Lemma rerender_ref :
  forall w, timer_inv w -> ref_is_save (rerender w).
Proof.
  intros w I. apply auto_save_effect_ref, clear_saveTimeout_inv, I.
Qed.

Lemma step_ref :
  forall ev w, timer_inv w -> ref_is_save w -> ref_is_save (step w ev).
Proof.
  intros ev w I R. destruct ev as [e| |sp sc| |k ok]; unfold step.
  - destruct (apply_edit_frame e w) as (Ht & Hn & _ & _ & _ & Hr).
    apply rerender_ref, (timer_inv_frame w); assumption.
  - exact R.
  - destruct (loadSettings_frame sp sc w) as (Ht & Hn & _ & _ & _ & Hr).
    pose proof (timer_inv_frame w _ Ht Hn Hr I) as I'.
    destruct sp, sc; try (apply rerender_ref, I'). exact R.
  - unfold ref_is_save in *. destruct (tick_host w) as (Ht & _).
    destruct (tick_records w) as (_ & _ & Hr).
    rewrite Ht, Hr. apply Forall_filter, R.
  - unfold ref_is_save in *.
    destruct (settle_host k ok w) as (extra & Ht & He & _).
    destruct (settle_records k ok w) as (_ & _ & Hr).
    rewrite Ht, Hr. apply Forall_app. split; [exact R|].
    eapply Forall_impl; [|exact He]. simpl. intros x (_ & Hx) E.
    pose proof (inv_ref w I _ E). lia.
Qed.

Lemma clear_saveTimeout_keeps_reset :
  forall d w, ref_is_save w -> reset_waiting d w ->
              reset_waiting d (clear_saveTimeout w).
Proof.
  intros d w R (x & Hin & Hx & Hd). exists x. split; [|auto].
  unfold clear_saveTimeout.
  destruct (saveTimeout (view w)) as [id|] eqn:E; [|exact Hin].
  destruct (id =? 0); [exact Hin|]. simpl. apply filter_In. split; [exact Hin|].
  apply negb_true_iff, Nat.eqb_neq. intros Heq.
  unfold ref_is_save in R. rewrite Forall_forall in R.
  specialize (R x Hin). rewrite E, Heq in R. specialize (R eq_refl).
  unfold is_reset in Hx. rewrite R in Hx. discriminate.
Qed.

Lemma rerender_keeps_reset :
  forall d w, ref_is_save w -> reset_waiting d w -> reset_waiting d (rerender w).
Proof.
  intros d w R H. unfold rerender, auto_save_cleanup.
  pose proof (clear_saveTimeout_ref w R) as R1.
  pose proof (clear_saveTimeout_keeps_reset d w R H) as H1.
  destruct (clear_saveTimeout_keeps_reset d _ R1 H1) as (x & Hin & Hx & Hd).
  destruct (auto_save_effect_host (clear_saveTimeout w)) as (Ht & _).
  exists x. rewrite Ht. split; [apply in_or_app; left; exact Hin|auto].
Qed.

Lemma reset_waiting_frame :
  forall d w w',
    timers (host w') = timers (host w) -> reset_waiting d w -> reset_waiting d w'.
Proof. intros d w w' Ht (x & H). exists x. rewrite Ht. exact H. Qed.

Lemma ref_is_save_frame :
  forall w w',
    timers (host w') = timers (host w) ->
    saveTimeout (view w') = saveTimeout (view w) ->
    ref_is_save w -> ref_is_save w'.
Proof. intros w w' Ht Hr R. unfold ref_is_save in *. rewrite Ht, Hr. exact R. Qed.

Lemma step_keeps_reset :
  forall d ev w,
    ref_is_save w -> reset_waiting d w ->
    (if is_tick ev then S (now (host w)) <? d else true) = true ->
    reset_waiting d (step w ev) /\
    now (host (step w ev))
      = (if is_tick ev then S (now (host w)) else now (host w)).
Proof.
  intros d ev w R H Hd.
  destruct ev as [e| |sp sc| |k ok]; unfold step; cbn [is_tick] in Hd |- *.
  - destruct (apply_edit_frame e w) as (Ht & _ & Hnow & _ & _ & Hr). split.
    + apply rerender_keeps_reset.
      * apply (ref_is_save_frame w); assumption.
      * apply (reset_waiting_frame d w); assumption.
    + unfold rerender, auto_save_cleanup.
      destruct (auto_save_effect_host (clear_saveTimeout (apply_edit e w)))
        as (_ & _ & Hn2 & _).
      destruct (clear_saveTimeout_host (apply_edit e w)) as (_ & Hn3 & _).
      rewrite Hn2, Hn3. exact Hnow.
  - split; [exact H|reflexivity].
  - destruct (loadSettings_frame sp sc w) as (Ht & _ & Hnow & _ & _ & Hr).
    assert (G : reset_waiting d (rerender (loadSettings sp sc w)) /\
                now (host (rerender (loadSettings sp sc w))) = now (host w)).
    { split.
      - apply rerender_keeps_reset.
        + apply (ref_is_save_frame w); assumption.
        + apply (reset_waiting_frame d w); assumption.
      - unfold rerender, auto_save_cleanup.
        destruct (auto_save_effect_host (clear_saveTimeout (loadSettings sp sc w)))
          as (_ & _ & Hn2 & _).
        destruct (clear_saveTimeout_host (loadSettings sp sc w)) as (_ & Hn3 & _).
        rewrite Hn2, Hn3. exact Hnow. }
    destruct sp, sc; try exact G. split; [exact H|reflexivity].
  - apply Nat.ltb_lt in Hd.
    destruct (tick_host w) as (Ht & _ & Hnow & _). split; [|exact Hnow].
    destruct H as (x & Hin & Hx & Hdx). exists x. rewrite Ht.
    split; [|auto]. apply filter_In. split; [exact Hin|].
    unfold is_due. apply negb_true_iff, Nat.leb_gt. lia.
  - destruct (settle_host k ok w) as (extra & Ht & _ & _ & _ & Hnow).
    split; [|exact Hnow].
    destruct H as (x & Hin & Hx). exists x. rewrite Ht.
    split; [apply in_or_app; left; exact Hin|exact Hx].
Qed.

Lemma run_keeps_reset :
  forall d evs w,
    timer_inv w /\ snapshot_inv w -> ref_is_save w -> reset_waiting d w ->
    now (host w) + ticks evs < d ->
    reset_waiting d (run w evs) /\
    now (host (run w evs)) = now (host w) + ticks evs.
Proof.
  intros d evs. induction evs as [|ev evs IH]; intros w I R H Hd.
  - unfold ticks. simpl. rewrite Nat.add_0_r. auto.
  - rewrite run_cons. unfold ticks in *. simpl in Hd |- *.
    destruct (step_keeps_reset d ev w R H) as (H1 & Hnow).
    { destruct (is_tick ev); [|reflexivity]. simpl in Hd.
      apply Nat.ltb_lt. lia. }
    destruct (IH (step w ev) (step_inv ev w I) (step_ref ev w (proj1 I) R) H1)
      as (H2 & Hnow2).
    { rewrite Hnow. destruct (is_tick ev); simpl in Hd |- *; lia. }
    split; [exact H2|]. rewrite Hnow2, Hnow.
    destruct (is_tick ev); simpl; lia.
Qed.

Lemma reachable_ref :
  forall tz th evs, ref_is_save (run (mount tz th) evs).
Proof.
  intros tz th evs.
  assert (G : forall l w, timer_inv w /\ snapshot_inv w -> ref_is_save w ->
                          ref_is_save (run w l)).
  { induction l as [|ev l IH]; intros w I R; [exact R|].
    rewrite run_cons. apply IH; [apply step_inv, I|apply step_ref; tauto]. }
  apply G; [apply mount_inv|].
  apply auto_save_effect_ref.
  split; simpl; try (constructor; fail); try lia. discriminate.
Qed.

(** X6: the timer that takes the "success" status back to "idle" is
    never cancelled: edits clear only the timer the ref points to.  So
    whatever happens in the 2000 ms after a save succeeded (edits, loads,
    other saves starting or finishing), the timer is still waiting at the
    end of them, and right after the 2000th millisecond the status is
    "idle". *)
Theorem success_status_is_reset_after_2s :
  forall (runtime_timeZone : string) (initial_theme : ThemeMode)
         (history : list event) (k : nat) (evs : list event),
    let w := run (mount runtime_timeZone initial_theme) history in
    let w' := step w (Settle k true) in
    nth_error (pending (host w)) k = Some AwaitUpdateAPIConfig ->
    S (ticks evs) = success_shown_ms ->
    saveStatus (view w') = success /\
    reset_waiting (now (host w) + 2000) (run w' evs) /\
    saveStatus (view (step (run w' evs) Tick)) = idle.
Proof.
  intros tz th history k evs w w' Hk Ht.
  pose proof (reachable_inv tz th history) as I. fold w in I.
  pose proof (reachable_ref tz th history) as R. fold w in R.
  assert (Hw' : saveStatus (view w') = success /\
                reset_waiting (now (host w) + 2000) w' /\
                now (host w') = now (host w)).
  { unfold w', step, settle. rewrite Hk. simpl. split; [reflexivity|].
    split; [|reflexivity].
    eexists. split; [apply in_or_app; right; left; reflexivity|].
    split; reflexivity. }
  destruct Hw' as (Hs & Hr & Hnow).
  destruct (run_keeps_reset (now (host w) + 2000) evs w'
              (step_inv _ w I) (step_ref _ w (proj1 I) R) Hr) as (H1 & Hnow1).
  { rewrite Hnow. unfold success_shown_ms in Ht. lia. }
  split; [exact Hs|]. split; [exact H1|].
  destruct (tick_misc (run w' evs)) as (_ & _ & _ & Hst).
  unfold step. rewrite Hst.
  destruct H1 as (x & Hin & Hx & Hd).
  assert (E : existsb is_reset
                (filter (is_due (S (now (host (run w' evs)))))
                   (timers (host (run w' evs)))) = true).
  { apply existsb_exists. exists x. split; [|exact Hx].
    apply filter_In. split; [exact Hin|].
    unfold is_due. apply Nat.leb_le. rewrite Hd, Hnow1, Hnow.
    unfold success_shown_ms in Ht. lia. }
  rewrite E. reflexivity.
Qed.

Lemma success_status_is_reset_after_2s_witness :
  let w := run (mount "UTC" system) first_save_history in
  nth_error (pending (host w)) 0 = Some AwaitUpdateAPIConfig /\
  S (ticks (Edit (ChangeName "Ada") :: repeat Tick 1999)) = success_shown_ms /\
  saveStatus
    (view (step (run (step w (Settle 0 true))
                   (Edit (ChangeName "Ada") :: repeat Tick 1999)) Tick)) = idle.
Proof.
  split; [vm_compute; reflexivity|]. split; [vm_compute; reflexivity|].
  exact (proj2 (proj2 (success_status_is_reset_after_2s "UTC" system
                         first_save_history 0
                         (Edit (ChangeName "Ada") :: repeat Tick 1999)
                         eq_refl eq_refl))).
Defined.

(** ** Leaving the view *)

Lemma ticks_without_save_timers :
  forall n w,
    save_timers w = [] ->
    save_timers (run w (repeat Tick n)) = [] /\
    calls (host (run w (repeat Tick n))) = calls (host w) /\
    pending (host (run w (repeat Tick n))) = pending (host w).
Proof.
  induction n as [|n IH]; intros w Hs; [auto|].
  simpl repeat. rewrite run_cons.
  assert (Hs' : save_timers (tick w) = []).
  { rewrite tick_save_timers, Hs. reflexivity. }
  destruct (IH (tick w) Hs') as (H1 & H2 & H3).
  change (step w Tick) with (tick w). rewrite H1, H2, H3.
  destruct (tick_calls w) as (Hc & Hp). rewrite Hs in Hc, Hp.
  simpl in Hc, Hp. rewrite app_nil_r in Hc, Hp. auto.
Qed.

Lemma after_unmount_run :
  forall (c0 : list db_call) (p0 : list continuation) (evs : list event)
         (w : World),
    forallb after_unmount evs = true ->
    save_timers w = [] ->
    (exists l, calls (host w) = c0 ++ l /\ Forall (continues p0) l) ->
    (forall ac, In (AwaitUpdatePersonalInfo ac) (pending (host w)) ->
                In (AwaitUpdatePersonalInfo ac) p0) ->
    save_timers (run w evs) = [] /\
    (exists l, calls (host (run w evs)) = c0 ++ l /\ Forall (continues p0) l) /\
    (forall ac, In (AwaitUpdatePersonalInfo ac) (pending (host (run w evs))) ->
                In (AwaitUpdatePersonalInfo ac) p0).
Proof.
  intros c0 p0 evs. induction evs as [|ev evs IH]; intros w Hev Hs Hc Hp; [auto|].
  simpl in Hev. apply andb_true_iff in Hev. destruct Hev as (H1 & H2).
  rewrite run_cons.
  destruct ev as [e| |sp sc| |k ok]; try discriminate H1.
  - change (step w Tick) with (tick w).
    destruct (tick_calls w) as (Hc' & Hp'). rewrite Hs in Hc', Hp'.
    simpl in Hc', Hp'. rewrite app_nil_r in Hc', Hp'.
    apply IH; [exact H2 | | |].
    + rewrite tick_save_timers, Hs. reflexivity.
    + rewrite Hc'. exact Hc.
    + rewrite Hp'. exact Hp.
  - change (step w (Settle k ok)) with (settle k ok w).
    destruct (settle_calls k ok w) as ((l & Hl & Hfl) & Hp').
    apply IH; [exact H2 | | |].
    + rewrite settle_save_timers. exact Hs.
    + destruct Hc as (l0 & Hl0 & Hfl0). exists (l0 ++ l). split.
      * rewrite Hl, Hl0, app_assoc. reflexivity.
      * apply Forall_app. split; [exact Hfl0|].
        eapply Forall_impl; [|exact Hfl]. intros c (ac & -> & Hin).
        exists ac. auto.
    + auto.
Qed.

(** X15: unmounting cancels the waiting save without running it, and
    nothing else.  From any reachable state, whatever time passes after
    the cleanup and however the writes in flight are settled, no save
    starts: no save timer is waiting, [updatePersonalInfo] is not called,
    and the only writes are the [updateAPIConfig] of saves that had made
    their first write before the view was left.  With time passing alone
    nothing is written at all.  So an edit made less than 600 ms before
    leaving never starts a save, while a save already running still
    completes. *)
Theorem unmount_starts_no_save :
  forall (runtime_timeZone : string) (initial_theme : ThemeMode)
         (history evs : list event) (n : nat),
    forallb after_unmount evs = true ->
    let w := run (mount runtime_timeZone initial_theme) history in
    save_timers (run (unmount w) evs) = [] /\
    (exists l, calls (host (run (unmount w) evs)) = calls (host w) ++ l /\
               Forall (continues (pending (host w))) l) /\
    calls (host (run (unmount w) (repeat Tick n))) = calls (host w) /\
    pending (host (run (unmount w) (repeat Tick n))) = pending (host w).
Proof.
  intros tz th history evs n Hev w.
  destruct (reachable_inv tz th history) as (I & _). fold w in I.
  pose proof (clear_saveTimeout_no_save w I) as Hs.
  destruct (clear_saveTimeout_host w) as (_ & _ & Hp & Hc & _).
  destruct (ticks_without_save_timers n (unmount w) Hs) as (_ & H2 & H3).
  destruct (after_unmount_run (calls (host w)) (pending (host w)) evs
              (unmount w) Hev Hs) as (G1 & G2 & _).
  - exists []. rewrite app_nil_r. split; [exact Hc|constructor].
  - intros ac Hin. unfold unmount, auto_save_cleanup in Hin.
    rewrite Hp in Hin. exact Hin.
  - unfold unmount, auto_save_cleanup in *. rewrite H2, H3. auto.
Qed.

Lemma unmount_starts_no_save_witness :
  forallb after_unmount [Tick; Settle 0 true; Tick] = true /\
  let w := run (mount "UTC" system) edit_then_save_starts in
  save_timers (run (unmount w) [Tick; Settle 0 true; Tick]) = [] /\
  exists l, calls (host (run (unmount w) [Tick; Settle 0 true; Tick]))
            = calls (host w) ++ l /\
            Forall (continues (pending (host w))) l.
Proof.
  split; [reflexivity|].
  destruct (unmount_starts_no_save "UTC" system edit_then_save_starts
              [Tick; Settle 0 true; Tick] 0 eq_refl) as (H1 & H2 & _).
  split; [exact H1|exact H2].
Defined.

(** ** Saves that overlap *)

Lemma nth_error_remove_nth_lt :
  forall (A : Type) (l : list A) (i j : nat),
    i < j -> nth_error (remove_nth j l) i = nth_error l i.
Proof.
  intros A l. induction l as [|a l IH]; intros i j H.
  - destruct j; reflexivity.
  - destruct j as [|j]; [lia|]. destruct i as [|i]; [reflexivity|].
    simpl. apply IH. lia.
Qed.

(** X14: saves in flight are not ordered among themselves.  When two
    save callbacks wait for their first write and the later one is
    resumed first, its [updateAPIConfig] is issued first and the older
    save's second: the collaborator receives the older APIConfig last. *)
Theorem second_writes_follow_settlement_order :
  forall (w : World) (i j : nat) (older newer : APIConfig),
    i < j ->
    nth_error (pending (host w)) i = Some (AwaitUpdatePersonalInfo older) ->
    nth_error (pending (host w)) j = Some (AwaitUpdatePersonalInfo newer) ->
    calls (host (run w [Settle j true; Settle i true]))
      = calls (host w) ++ [updateAPIConfig newer; updateAPIConfig older] /\
    apiConfig (view (run w [Settle j true; Settle i true])) = apiConfig (view w).
Proof.
  intros w i j older newer Hij Hi Hj.
  rewrite run_cons, run_one.
  assert (E1 : step w (Settle j true)
               = resume (AwaitUpdatePersonalInfo newer) true
                   (on_host (fun h => with_pending (remove_nth j (pending h)) h) w)).
  { unfold step, settle. rewrite Hj. reflexivity. }
  assert (Hi' : nth_error (pending (host (step w (Settle j true)))) i
                = Some (AwaitUpdatePersonalInfo older)).
  { rewrite E1. simpl. rewrite nth_error_app1.
    - rewrite nth_error_remove_nth_lt; assumption.
    - apply nth_error_Some. rewrite nth_error_remove_nth_lt by assumption.
      rewrite Hi. discriminate. }
  split.
  - unfold step at 1, settle. rewrite Hi'. rewrite E1. simpl.
    rewrite <- app_assoc. reflexivity.
  - destruct (settle_records i true (step w (Settle j true))) as (_ & Hc & _).
    destruct (settle_records j true w) as (_ & Hc' & _).
    change (step (step w (Settle j true)) (Settle i true))
      with (settle i true (step w (Settle j true))).
    rewrite Hc. exact Hc'.
Qed.

Lemma second_writes_follow_settlement_order_witness :
  let w := run (mount "UTC" system) two_saves_in_flight in
  0 < 1 /\
  nth_error (pending (host w)) 0 = Some (AwaitUpdatePersonalInfo default_apiConfig) /\
  nth_error (pending (host w)) 1 = Some (AwaitUpdatePersonalInfo sample_config) /\
  calls (host (run w [Settle 1 true; Settle 0 true]))
    = calls (host w) ++ [updateAPIConfig sample_config;
                         updateAPIConfig default_apiConfig].
Proof.
  intros w. split; [exact (Nat.lt_0_succ 0)|].
  split; [vm_compute; reflexivity|]. split; [vm_compute; reflexivity|].
  exact (proj1 (second_writes_follow_settlement_order w 0 1 default_apiConfig
                  sample_config (Nat.lt_0_succ 0) eq_refl eq_refl)).
Defined.

End SettingsExtra.

(* ================================================================== *)
(** * Further properties of the context menu *)

Module WidgetContextMenuExtra.
Import WidgetContextMenu WidgetContextMenuSpec.

(** ** Which buttons there are *)

(** X10: the menu shows a button for an action exactly when the action's
    callback is supplied (for "remove", when in addition [showRemove] is
    true); the buttons come in the order add, rearrange, remove, and the
    position of a button is the number of buttons shown before it. *)
Theorem buttons_follow_supplied_callbacks :
  forall (W : Type) (p : ContextMenuProps W),
    let add := is_some (onAddWidget p) in
    let rearrange := is_some (onRearrangeWidgets p) in
    let remove := showRemove_or_default p && is_some (onRemoveWidget p) in
    menu_labels p
      = (if add then ["Add Widget"%string] else []) ++
        (if rearrange then ["Rearrange Widgets"%string] else []) ++
        (if remove then ["Remove Widget"%string] else []) /\
    control_index AddWidget p = (if add then Some 0 else None) /\
    control_index RearrangeWidgets p
      = (if rearrange then Some (if add then 1 else 0) else None) /\
    control_index RemoveWidget p
      = (if remove
         then Some ((if add then 1 else 0) + (if rearrange then 1 else 0))
         else None).
Proof.
  intros W p.
  destruct p as [px py close [fa|] [fm|] [fr|] [[|]|]]; repeat split; reflexivity.
Qed.

(** ** Clicks inside the menu *)

Section Inside.

Variable W : Type.

Lemma button_bubble :
  forall (colour : list string) (h : handler W) (ic lbl : string)
         (sub : list nat) (up : list (vnode W)) (d : Dispatch W),
    propagationStopped d = false ->
    propagationStopped (h d) = true ->
    bubble (vnode_ancestors (menu_button W colour h ic lbl) sub up) d = h d.
Proof.
  intros colour h ic lbl sub up d Hd Hh.
  destruct sub as [|[|[|k]] sub']; simpl.
  - rewrite Hh. reflexivity.
  - destruct sub' as [|j sub'']; [|destruct j]; simpl; rewrite Hd, Hh; reflexivity.
  - destruct sub' as [|j sub'']; [|destruct j]; simpl; rewrite Hd, Hh; reflexivity.
  - destruct k; simpl; rewrite Hh; reflexivity.
Qed.

Lemma lineage_child :
  forall (d : dom) (n : nat) (sub : list nat) (l : list dom),
    lineage d (n :: sub) = Some l ->
    exists c, nth_error (dom_children d) n = Some c.
Proof.
  intros d n sub l H. simpl in H.
  destruct (nth_error (dom_children d) n) as [c|]; [eauto|discriminate].
Qed.

(** X11: with the menu mounted in a page, a click on any element inside
    the menu has one of two outcomes.  On the menu's own box nothing is
    invoked and the menu stays open.  Anywhere on or inside a button, that
    button's callback is invoked once, then [onClose] once, and nothing
    else.  So a click inside never closes the menu without running an
    action and never runs an action without closing. *)
Theorem inside_click_runs_action_then_closes :
  forall (stops_native : bool) (p : ContextMenuProps W) (page : dom)
         (menu_at rel : list nat) (w : W) (d : Dispatch W),
    node_at page menu_at = Some (to_dom (render p)) ->
    click stops_native p page menu_at (menu_at ++ rel) w = Some d ->
    (rel = [] /\
     d = {| world := w; invoked := []; propagationStopped := false |}) \/
    (exists a f n sub,
       rel = n :: sub /\
       control_index a p = Some n /\
       callback_of a p = Some f /\
       d = {| world := onClose p (f w);
              invoked := [invocation_of a; Called_onClose];
              propagationStopped := true |}).
Proof.
  intros stops_native p page menu_at rel w d Hm Hc.
  destruct (lineage_app menu_at page _ Hm) as (up & Hup).
  unfold click in Hc. rewrite strip_prefix_app in Hc.
  destruct (inclusive_ancestors page (menu_at ++ rel)) as [chain|] eqn:Ec;
    [|discriminate].
  destruct (inside_menu_closest W p page menu_at rel chain Hm Ec) as (m & Hcl).
  assert (Hl : exists l, lineage (to_dom (render p)) rel = Some l).
  { unfold inclusive_ancestors in Ec. rewrite Hup in Ec.
    destruct (lineage (to_dom (render p)) rel) as [l|]; [eauto|discriminate]. }
  destruct chain as [|[t cl ch|s] chain']; try discriminate.
  unfold handleClickOutside in Hc. rewrite Hcl in Hc.
  assert (Hd : d = bubble (vnode_ancestors (render p) rel [])
                     {| world := w; invoked := []; propagationStopped := false |}).
  { destruct (stops_native && _); injection Hc as <-; reflexivity. }
  clear Hc Ec Hcl Hup.
  destruct rel as [|n sub].
  - left. split; [reflexivity|]. rewrite Hd. reflexivity.
  - right. destruct Hl as (l & Hl).
    destruct (lineage_child _ _ _ _ Hl) as (c & Hn). clear Hl.
    assert (Hb : forall colour h ic lbl,
              nth_error (vnode_children (render p)) n
                = Some (menu_button W colour h ic lbl) ->
              (forall s, propagationStopped (h s) = true) ->
              d = h {| world := w; invoked := []; propagationStopped := false |}).
    { intros colour h ic lbl Hnth Hh. rewrite Hd.
      change (vnode_ancestors (render p) (n :: sub) [])
        with (match nth_error (vnode_children (render p)) n with
              | Some c0 => vnode_ancestors c0 sub [render p]
              | None => [render p]
              end).
      rewrite Hnth. apply button_bubble; [reflexivity|apply Hh]. }
    clear Hd.
    destruct p as [px py close [fa|] [fm|] [fr|] [[|]|]];
      destruct n as [|[|[|n]]]; simpl in Hn; try discriminate Hn;
      try (destruct n; discriminate Hn);
      rewrite (Hb _ _ _ _ eq_refl (fun _ => eq_refl));
      first
        [ exists AddWidget; do 3 eexists;
          split; [reflexivity|]; split; [reflexivity|]; split; reflexivity
        | exists RearrangeWidgets; do 3 eexists;
          split; [reflexivity|]; split; [reflexivity|]; split; reflexivity
        | exists RemoveWidget; do 3 eexists;
          split; [reflexivity|]; split; [reflexivity|]; split; reflexivity ].
Qed.

(** X12: whether React's [stopPropagation] keeps the native click from
    the listener on [document] makes no difference to the outcome of any
    click: inside the menu the listener finds the menu among the target's
    ancestors and does nothing, outside no React handler of the menu has
    run. *)
Theorem click_outcome_independent_of_native_stop :
  forall (p : ContextMenuProps W) (page : dom) (menu_at target : list nat)
         (w : W),
    node_at page menu_at = Some (to_dom (render p)) ->
    click true p page menu_at target w = click false p page menu_at target w.
Proof.
  intros p page menu_at target w Hm. unfold click.
  destruct (inclusive_ancestors page target) as [chain|] eqn:Ec; [|reflexivity].
  destruct chain as [|[t cl ch|s] chain']; try reflexivity.
  destruct (strip_prefix menu_at target) as [rel|] eqn:Es.
  - apply strip_prefix_Some in Es. subst target.
    destruct (inside_menu_closest W p page menu_at rel _ Hm Ec) as (m & Hcl).
    unfold handleClickOutside. rewrite Hcl.
    destruct (propagationStopped _); reflexivity.
  - reflexivity.
Qed.

End Inside.

Lemma inside_click_runs_action_then_closes_witness :
  node_at two_menus_page [1] = Some (to_dom (render counting_props)) /\
  click false counting_props two_menus_page [1] ([1] ++ [0; 0]) (0, 0)
    = Some {| world := (1, 1);
              invoked := [Called_onAddWidget; Called_onClose];
              propagationStopped := true |} /\
  ([0; 0] = [] /\
   {| world := (1, 1); invoked := [Called_onAddWidget; Called_onClose];
      propagationStopped := true |}
   = {| world := (0, 0); invoked := []; propagationStopped := false |} \/
   exists a f n sub,
     [0; 0] = n :: sub /\
     control_index a counting_props = Some n /\
     callback_of a counting_props = Some f /\
     {| world := (1, 1); invoked := [Called_onAddWidget; Called_onClose];
        propagationStopped := true |}
     = {| world := onClose counting_props (f (0, 0));
          invoked := [invocation_of a; Called_onClose];
          propagationStopped := true |}).
Proof.
  split; [reflexivity|]. split; [reflexivity|].
  exact (inside_click_runs_action_then_closes (nat * nat) false counting_props
           two_menus_page [1] [0; 0] (0, 0) _ eq_refl eq_refl).
Defined.

Lemma click_outcome_independent_of_native_stop_witness :
  node_at two_menus_page [1] = Some (to_dom (render counting_props)) /\
  click true counting_props two_menus_page [1] [1; 0] (0, 0)
    = click false counting_props two_menus_page [1] [1; 0] (0, 0).
Proof.
  split; [reflexivity|].
  exact (click_outcome_independent_of_native_stop (nat * nat) counting_props
           two_menus_page [1] [1; 0] (0, 0) eq_refl).
Defined.

(** ** The listener's life cycle *)

Section Lifecycle.

Variable W : Type.

(** What holds of a mounted menu relative to the document [d0] it was
    mounted into. *)
Lemma update_keeps_one_listener :
  forall (d0 : Document W) (ev : rerender_event W) (m : Mounted W),
    (exists q,
       listeners (document m)
         = listeners d0 ++ [{| listener_id := registered m; listener_props := q |}] /\
       onClose q = onClose (current m)) ->
    Forall (fun l => listener_id l < registered m) (listeners d0) ->
    registered m < next_listener (document m) ->
    (exists q,
       listeners (document (update m ev))
         = listeners d0 ++
           [{| listener_id := registered (update m ev); listener_props := q |}] /\
       onClose q = onClose (current (update m ev))) /\
    Forall (fun l => listener_id l < registered (update m ev)) (listeners d0) /\
    registered (update m ev) < next_listener (document (update m ev)).
Proof.
  intros d0 [px py [f|] add remove rearrange show] m (q & Hl & Hq) Hlt Hn; simpl.
  - split; [|split].
    + assert (Hf : filter (fun l => negb (listener_id l =? registered m))
                     (listeners d0) = listeners d0).
      { apply SettingsSpec.filter_all. eapply Forall_impl; [|exact Hlt]. simpl. intros l Hlid.
        apply negb_true_iff, Nat.eqb_neq. lia. }
      eexists. split.
      * rewrite Hl, filter_app, Hf. simpl.
        rewrite Nat.eqb_refl. simpl. rewrite app_nil_r. reflexivity.
      * reflexivity.
    + eapply Forall_impl; [|exact Hlt]. simpl. intros; lia.
    + lia.
  - split; [|split; assumption]. exists q. split; [exact Hl|exact Hq].
Qed.

(** X13: through any number of re-renders by the parent, the menu keeps
    exactly one click listener on the document, registered after those
    that were there before, and that listener closes with the [onClose]
    of the latest render: a click outside every context menu runs the
    earlier listeners and then calls the current [onClose] once.
    Unmounting removes the listener and leaves the document's listeners as
    they were before the menu was mounted. *)
Theorem one_listener_with_latest_onClose :
  forall (d0 : Document W) (p : ContextMenuProps W)
         (evs : list (rerender_event W)) (chain : list dom) (s : Dispatch W),
    Forall (fun l => listener_id l < next_listener d0) (listeners d0) ->
    closest "context-menu" chain = None ->
    let m := fold_left update evs (mount_menu p d0) in
    (exists q,
       listeners (document m)
         = listeners d0 ++ [{| listener_id := registered m; listener_props := q |}] /\
       onClose q = onClose (current m)) /\
    listeners (unmount_menu m) = listeners d0 /\
    document_click chain (document m) s
      = invoke Called_onClose (onClose (current m)) (document_click chain d0 s) /\
    document_click chain (unmount_menu m) s = document_click chain d0 s.
Proof.
  intros d0 p evs chain s Hwf Hout m.
  assert (G : (exists q,
                 listeners (document m)
                   = listeners d0 ++
                     [{| listener_id := registered m; listener_props := q |}] /\
                 onClose q = onClose (current m)) /\
              Forall (fun l => listener_id l < registered m) (listeners d0) /\
              registered m < next_listener (document m)).
  { subst m.
    assert (G0 : (exists q,
                    listeners (document (mount_menu p d0))
                      = listeners d0 ++
                        [{| listener_id := registered (mount_menu p d0);
                            listener_props := q |}] /\
                    onClose q = onClose (current (mount_menu p d0))) /\
                 Forall (fun l => listener_id l < registered (mount_menu p d0))
                   (listeners d0) /\
                 registered (mount_menu p d0)
                   < next_listener (document (mount_menu p d0))).
    { simpl. split; [eauto|]. split; [exact Hwf|lia]. }
    revert G0. generalize (mount_menu p d0).
    induction evs as [|ev evs IH]; intros m0 G0; [exact G0|].
    simpl. apply IH. destruct G0 as (H1 & H2 & H3).
    apply update_keeps_one_listener; assumption. }
  destruct G as ((q & Hl & Hq) & Hlt & _).
  assert (Hun : listeners (unmount_menu m) = listeners d0).
  { unfold unmount_menu. simpl. rewrite Hl, filter_app. simpl.
    rewrite Nat.eqb_refl. simpl. rewrite app_nil_r.
    apply SettingsSpec.filter_all. eapply Forall_impl; [|exact Hlt]. simpl. intros l Hlid.
    apply negb_true_iff, Nat.eqb_neq. lia. }
  split; [exists q; auto|]. split; [exact Hun|]. split.
  - unfold document_click. rewrite Hl, fold_left_app. simpl.
    unfold handleClickOutside at 1. rewrite Hout, Hq. reflexivity.
  - unfold document_click. rewrite Hun. reflexivity.
Qed.

End Lifecycle.

Lemma one_listener_with_latest_onClose_witness :
  let d0 := {| listeners := []; next_listener := 0 |} in
  let m := fold_left update sample_rerenders (mount_menu counting_props d0) in
  Forall (fun l : listener (nat * nat) => listener_id l < next_listener d0)
    (listeners d0) /\
  closest "context-menu" [DElement "main" [] []] = None /\
  listeners (unmount_menu m) = [] /\
  document_click [DElement "main" [] []] (document m)
    {| world := (0, 0); invoked := []; propagationStopped := false |}
    = invoke Called_onClose (onClose (current m))
        {| world := (0, 0); invoked := []; propagationStopped := false |}.
Proof.
  intros d0 m. split; [constructor|]. split; [reflexivity|].
  destruct (one_listener_with_latest_onClose (nat * nat) d0 counting_props
              sample_rerenders [DElement "main" [] []]
              {| world := (0, 0); invoked := []; propagationStopped := false |}
              (Forall_nil _) eq_refl) as (_ & H2 & H3 & _).
  split; [exact H2|exact H3].
Defined.

End WidgetContextMenuExtra.
